(** * Collapsible checklist sections (js-sample.js)

    A shallow embedding of the page script of the TracChecklist plugin and
    of the part of the DOM and of jQuery it relies on:

    - the document is a tree of elements; an element carries its tag name,
      its class list, its attributes, whether its own [display] is [none],
      and how many copies of the script's click handler are bound to it;
    - an element is addressed by the path of child indices leading to it
      from the root element, the way a jQuery object holds element
      references: no operation of the script moves or removes an element,
      so a path denotes the same element throughout;
    - a jQuery set is the list of its elements in document order;
    - text nodes carry no class, handler or display of their own and are
      left out;
    - the animation of [slideToggle(200)] is taken at its settled end
      state: it flips the element's own display between shown and hidden,
      the decision jQuery takes from the element's display when the
      animation starts. *)

From stdpp Require Import base list strings.

Local Open Scope string_scope.
Local Open Scope list_scope.

(** ** The document *)

Module Dom.

Record attrs := Attrs {
  tag : string;                          (* localName, e.g. "pre" *)
  classes : list string;                 (* classList *)
  attributes : list (string * string);   (* name/value pairs *)
  hidden : bool;                         (* the element's display is none *)
  click_handlers : nat                   (* bound copies of the click handler *)
}.

#[local] Unset Elimination Schemes.
Inductive node := Node (a : attrs) (kids : list node).
#[local] Set Elimination Schemes.

Definition path := list nat.

Definition node_attrs (n : node) : attrs := let 'Node a _ := n in a.
Definition node_kids (n : node) : list node := let 'Node _ ks := n in ks.

(** The element at a path, if the path leads to one. *)
Fixpoint node_at (p : path) (n : node) : option node :=
  match p with
  | [] => Some n
  | i :: p' =>
      match node_kids n !! i with
      | Some k => node_at p' k
      | None => None
      end
  end.

Definition attrs_at (p : path) (n : node) : option attrs :=
  node_attrs <$> node_at p n.

(** Changing the element at a path in place; nothing happens when the path
    leads nowhere. Only the element's own record changes, never the tree. *)
Fixpoint update (p : path) (f : attrs → attrs) (n : node) : node :=
  match p with
  | [] => Node (f (node_attrs n)) (node_kids n)
  | i :: p' => Node (node_attrs n) (alter (update p' f) i (node_kids n))
  end.

(** All elements of the document, in document order (an element before its
    descendants, siblings left to right). *)
Fixpoint paths (n : node) : list path :=
  let 'Node _ ks := n in
  [] :: (fix go (i : nat) (ks : list node) : list path :=
           match ks with
           | [] => []
           | k :: ks' => (cons i <$> paths k) ++ go (S i) ks'
           end) 0 ks.

Definition kid_paths : nat → list node → list path :=
  fix go (i : nat) (ks : list node) : list path :=
    match ks with
    | [] => []
    | k :: ks' => (cons i <$> paths k) ++ go (S i) ks'
    end.

(** [parent.appendChild(child)]: the new last child of the element at [p]. *)
Fixpoint append_child (p : path) (child : node) (n : node) : node :=
  match p with
  | [] => Node (node_attrs n) (node_kids n ++ [child])
  | i :: p' => Node (node_attrs n) (alter (append_child p' child) i (node_kids n))
  end.

(** The path the appended child gets. *)
Definition appended_path (p : path) (n : node) : path :=
  match node_at p n with
  | Some m => p ++ [length (node_kids m)]
  | None => p
  end.

End Dom.
Import Dom.

(** ** Selectors *)

Module Selector.

(** The selectors the script uses are descendant chains of compound
    selectors made of tag, class and attribute-value tests. *)
Inductive simple :=
  | ByTag (t : string)
  | ByClass (c : string)
  | ByAttr (name value : string).

Definition compound := list simple.

(** A chain [[c1; ...; cn]] stands for [c1 ... cn] with the descendant
    combinator between neighbours. *)
Definition selector := list compound.

Fixpoint get_attr (name : string) (l : list (string * string)) : option string :=
  match l with
  | [] => None
  | (k, v) :: l' => if bool_decide (k = name) then Some v else get_attr name l'
  end.

Definition simple_matches (s : simple) (a : attrs) : bool :=
  match s with
  | ByTag t => bool_decide (tag a = t)
  | ByClass c => bool_decide (c ∈ classes a)
  | ByAttr name value => bool_decide (get_attr name (attributes a) = Some value)
  end.

Definition compound_matches (c : compound) (a : attrs) : bool :=
  forallb (fun s => simple_matches s a) c.

Definition compound_at (c : compound) (d : node) (p : path) : bool :=
  match attrs_at p d with
  | Some a => compound_matches c a
  | None => false
  end.

(** The proper ancestors of the element at [p] are the elements at the
    proper prefixes of [p]. *)
Definition ancestors (p : path) : list path :=
  (fun k => take k p) <$> seq 0 (length p).

(** [chain_at rchain d p]: the element at [p] matches the chain whose
    compounds, innermost first, are [rchain]: the innermost compound holds
    of the element and the rest of the chain of one of its ancestors. *)
Fixpoint chain_at (rchain : list compound) (d : node) (p : path) : bool :=
  match rchain with
  | [] => false
  | [c] => compound_at c d p
  | c :: rest =>
      compound_at c d p && existsb (chain_at rest d) (ancestors p)
  end.

Definition matches (sel : selector) (d : node) (p : path) : bool :=
  chain_at (rev sel) d p.

End Selector.
Import Selector.

(** ** The part of jQuery the script uses *)

Module JQuery.

(** [$(sel)]: the elements of the document matching [sel], in document
    order. *)
Definition select (sel : selector) (d : node) : list path :=
  filter (fun p => matches sel d p = true) (paths d).

(** [$(e).is(sel)] ([is] itself is a reserved word here). *)
Definition jq_is (sel : selector) (d : node) (p : path) : bool := matches sel d p.

Definition strict_prefix (c q : path) : bool :=
  bool_decide (c `prefix_of` q) && negb (bool_decide (c = q)).

(** [$(c).find(sel)]: the descendants of [c] matching [sel]. *)
Definition find (sel : selector) (d : node) (c : path) : list path :=
  filter (fun q => strict_prefix c q && matches sel d q = true) (paths d).

(** [.on('click', handler)]: one more copy of the handler is bound. *)
Definition add_handler (a : attrs) : attrs :=
  Attrs (tag a) (classes a) (attributes a) (hidden a) (S (click_handlers a)).

Definition on_click (c : path) (d : node) : node := update c add_handler d.

Definition set_hidden (h : bool) (a : attrs) : attrs :=
  Attrs (tag a) (classes a) (attributes a) h (click_handlers a).

(** A jQuery method that changes elements in place does so for every
    element of the set, in order. *)
Definition apply_to (f : attrs → attrs) (ps : list path) (d : node) : node :=
  fold_left (fun d q => update q f d) ps d.

(** [.hide()] on a set: every element's display becomes none. *)
Definition hide (ps : list path) (d : node) : node :=
  apply_to (set_hidden true) ps d.

Definition toggle_hidden (a : attrs) : attrs := set_hidden (negb (hidden a)) a.

(** [.slideToggle(200)] on a set, at the end of the animation: a hidden
    element is shown, a shown one hidden. *)
Definition slideToggle (ps : list path) (d : node) : node :=
  apply_to toggle_hidden ps d.

Definition toggle_class_attrs (c : string) (a : attrs) : attrs :=
  Attrs (tag a)
        (if bool_decide (c ∈ classes a)
         then filter (fun x => x ≠ c) (classes a)
         else classes a ++ [c])
        (attributes a) (hidden a) (click_handlers a).

(** [.toggleClass(c)] on one element. *)
Definition toggleClass (c : string) (p : path) (d : node) : node :=
  update p (toggle_class_attrs c) d.

End JQuery.
Import JQuery.

(** ** The script *)

(** The selectors as they stand in the source. *)
Definition sel_container : selector :=
  [[ByClass "checklist"]; [ByClass "container"; ByClass "collapsible"]].
Definition sel_checkbox : selector := [[ByTag "input"; ByAttr "type" "checkbox"]].
Definition sel_pre : selector := [[ByTag "pre"]].
Definition sel_checklist : selector := [[ByClass "checklist"]].

(** The page: the document, the text of the current selection
    ([window.getSelection().toString()]), and how many delegated
    [DOMNodeInserted] handlers are bound on the document. *)
Record page := Page {
  document : node;
  selection : string;
  inserted_handlers : nat
}.

Record event := Event {
  target : path;
  propagation_stopped : bool
}.

Definition set_document (d : node) (s : page) : page :=
  Page d (selection s) (inserted_handlers s).

Definition stopPropagation (e : event) : event := Event (target e) true.

(** A string is truthy when it is not empty. *)
Definition truthy (s : string) : bool := negb (bool_decide (s = "")).

(** The test of the click handler's early return. *)
Definition ignored (e : event) (s : page) : bool :=
  jq_is sel_checkbox (document s) (target e)
  || jq_is sel_pre (document s) (target e)
  || truthy (selection s).

(** The click handler bound to a container; [this] is the container the
    handler is running for. *)
Definition click_handler (this : path) (e : event) (s : page) : page * event :=
  if ignored e s then (s, e)
  else
    let d1 := toggleClass "active" this (document s) in
    let d2 := slideToggle (find sel_pre d1 this) d1 in
    (set_document d2 s, stopPropagation e).

(** The body of the [each] callback for one container. *)
Definition init_container (d : node) (c : path) : node :=
  let d1 := on_click c d in
  hide (find sel_pre d1 c) d1.

Definition initCollapsible (d : node) : node :=
  fold_left init_container (select sel_container d) d.

(** *** Event dispatch *)

Definition handlers_at (p : path) (d : node) : nat :=
  from_option click_handlers 0 (attrs_at p d).

(** The handlers bound to one element run one after the other, in binding
    order; [stopPropagation] does not keep the later handlers of the same
    element from running. All [k] of them are copies of [click_handler]. *)
Fixpoint run_handlers (k : nat) (this : path) (e : event) (s : page) : page * event :=
  match k with
  | 0 => (s, e)
  | S k' => let '(s', e') := click_handler this e s in run_handlers k' this e' s'
  end.

(** Bubbling: the event visits its target, then each ancestor up to the
    root element, and goes no further than the element whose handlers
    stopped its propagation. [n] is the depth of the element visited. *)
Fixpoint bubble (n : nat) (e : event) (s : page) : page * event :=
  let this := take n (target e) in
  let '(s', e') := run_handlers (handlers_at this (document s)) this e s in
  match n with
  | 0 => (s', e')
  | S n' => if propagation_stopped e' then (s', e') else bubble n' e' s'
  end.

(** A click on the element at [t]. *)
Definition click (t : path) (s : page) : page :=
  fst (bubble (length t) (Event t false) s).

(** The handler of [$(document).on('DOMNodeInserted', '.checklist', ...)]. *)
Definition node_inserted_handler (s : page) : page :=
  set_document (initCollapsible (document s)) s.

(** The elements a handler delegated with [sel] runs for when the event's
    target is [t]: the target and its ancestors, nearest first, that match. *)
Definition delegate_targets (sel : selector) (d : node) (t : path) : list path :=
  filter (fun p => matches sel d p = true) (t :: rev (ancestors t)).

(** A [DOMNodeInserted] event with target [t] reaching the document: every
    delegated handler runs once for each element of [delegate_targets]. *)
Definition dispatch_node_inserted (t : path) (s : page) : page :=
  let n := inserted_handlers s in
  fold_left (fun s _ => Nat.iter n node_inserted_handler s)
            (delegate_targets sel_checklist (document s) t) s.

(** The callback of [$(document).ready]: the first initialization, then the
    binding of the delegated handler. *)
Definition ready (s : page) : page :=
  let s1 := set_document (initCollapsible (document s)) s in
  Page (document s1) (selection s1) (S (inserted_handlers s1)).

(** Content added to the page by [parent.appendChild(child)]: the browser
    inserts the subtree and fires [DOMNodeInserted] at its root. *)
Definition appendChild (parent : path) (child : node) (s : page) : page :=
  match node_at parent (document s) with
  | None => s
  | Some _ =>
      dispatch_node_inserted
        (appended_path parent (document s))
        (set_document (append_child parent child (document s)) s)
  end.

(** ** Vocabulary of the statements *)

(** [f] leaves what the compound [c] tests as it is. *)
Definition keeps (f : attrs → attrs) (c : compound) : Prop :=
  ∀ a, compound_matches c (f a) = compound_matches c a.

(** [f] changes neither tag, classes nor attributes. *)
Definition cosmetic (f : attrs → attrs) : Prop :=
  ∀ a, tag (f a) = tag a ∧ classes (f a) = classes a
       ∧ attributes (f a) = attributes a.

(** The change initialization makes to one record: [n] more handlers, and
    hidden when [h] holds. *)
Definition init_effect (n : nat) (h : bool) (a : attrs) : attrs :=
  Attrs (tag a) (classes a) (attributes a) (hidden a || h) (click_handlers a + n).

(** [q] is a code block inside the container [c]. *)
Definition covers (d : node) (c q : path) : bool :=
  bool_decide (q ∈ find sel_pre d c).

(** [q] is a code block inside some container of the document. *)
Definition covered (d : node) (q : path) : bool :=
  existsb (fun c => covers d c q) (select sel_container d).

(** The handlers one run of initialization binds to [q]. *)
Definition bound (d : node) (q : path) : nat :=
  if matches sel_container d q then 1 else 0.

(** How often [q] stands in a jQuery set. *)
Definition occurrences (q : path) (l : list path) : nat :=
  length (filter (fun c => c = q) l).

(** The document after the two toggles of a click that is not ignored. *)
Definition toggled (this : path) (d : node) : node :=
  slideToggle (find sel_pre (toggleClass "active" this d) this)
              (toggleClass "active" this d).

(** The change a toggling click makes to one record. *)
Definition toggle_effect (self below : bool) (a : attrs) : attrs :=
  let a1 := if self then toggle_class_attrs "active" a else a in
  if below then toggle_hidden a1 else a1.

(** The runs of initialization one insertion brings about. *)
Definition reinit_count (t : path) (s : page) : nat :=
  length (delegate_targets sel_checklist (document s) t) * inserted_handlers s.

(** The element at [q] carries the class [x]. *)
Definition has_class (x : string) (d : node) (q : path) : Prop :=
  ∃ a, attrs_at q d = Some a ∧ x ∈ classes a.

(** The depth of the element whose handlers a click on [t] runs: the
    nearest element with a handler bound, looked for from depth [n] of the
    target's branch up to the root. *)
Fixpoint reached (n : nat) (t : path) (d : node) : option nat :=
  if bool_decide (0 < handlers_at (take n t) d)%nat then Some n
  else match n with
       | 0 => None
       | S n' => reached n' t d
       end.

(** Two records of one element that differ at most in its display and in
    whether it carries the class [active]. *)
Definition same_markup (a a' : attrs) : Prop :=
  tag a' = tag a ∧ attributes a' = attributes a
  ∧ click_handlers a' = click_handlers a
  ∧ ∀ x, x ≠ "active" → x ∈ classes a' ↔ x ∈ classes a.

(** What happens to a loaded page: the user clicks an element or changes
    the selection, or a node is inserted and the browser fires
    [DOMNodeInserted] at it. *)
Inductive action :=
  | Click (t : path)
  | Select (text : string)
  | NodeInserted (t : path).

Definition perform (s : page) (a : action) : page :=
  match a with
  | Click t => click t s
  | Select text => Page (document s) text (inserted_handlers s)
  | NodeInserted t => dispatch_node_inserted t s
  end.

Definition run (l : list action) (s : page) : page := fold_left perform l s.

(** A later record of an element whose markup is untouched: same tag and
    attributes, the same classes but for [active], no handler unbound, and
    the same display unless the element is a [pre]. *)
Definition evolves (a a' : attrs) : Prop :=
  tag a' = tag a ∧ attributes a' = attributes a
  ∧ (∀ x, x ≠ "active" → x ∈ classes a' ↔ x ∈ classes a)
  ∧ (click_handlers a ≤ click_handlers a')%nat
  ∧ (tag a ≠ "pre" → hidden a' = hidden a).

(** ** Sample pages *)

Module Samples.

Definition elem (t : string) (cs : list string) (ks : list node) : node :=
  Node (Attrs t cs [] false 0) ks.

Definition checkbox : node :=
  Node (Attrs "input" [] [("type", "checkbox")] false 0) [].

(** One checklist holding one collapsible container with a checkbox, a
    label and a code block. *)
Definition item : node :=
  elem "div" ["container"; "collapsible"]
       [checkbox; elem "span" [] []; elem "pre" [] []].

Definition page1 : page :=
  Page (elem "html" [] [elem "div" ["checklist"] [item]]) "" 0.

(** A container with two code blocks, one of them nested deeper. *)
Definition item2 : node :=
  elem "div" ["container"; "collapsible"]
       [elem "pre" [] []; elem "div" [] [elem "pre" [] []]].

Definition page2 : page :=
  Page (elem "html" [] [elem "div" ["checklist"] [item2]]) "" 0.

(** A container outside any checklist. *)
Definition page3 : page :=
  Page (elem "html" [] [elem "div" ["wiki"] [item]]) "" 0.

(** A container without a code block. *)
Definition page4 : page :=
  Page (elem "html" []
          [elem "div" ["checklist"]
             [elem "div" ["container"; "collapsible"] [elem "span" [] []]]]) "" 0.

(** An empty checklist nested inside another one. *)
Definition page6 : page :=
  Page (elem "html" []
          [elem "div" ["checklist"] [elem "div" ["checklist"] []]]) "" 0.

(** A container nested in another one, each with a code block of its
    own. *)
Definition page7 : page :=
  Page (elem "html" []
          [elem "div" ["checklist"]
             [elem "div" ["container"; "collapsible"]
                [elem "pre" [] [];
                 elem "div" ["container"; "collapsible"]
                   [elem "span" [] []; elem "pre" [] [elem "code" [] []]]]]])
       "" 0.

(** The first sample page, loaded, after a [span] was added to its
    checklist. *)
Definition page1_grown : page :=
  appendChild [0] (elem "span" [] []) (ready page1).

(** The first sample page, loaded, after one and after two more containers
    were added to its checklist. *)
Definition page1_one_more : page := appendChild [0] item (ready page1).
Definition page1_two_more : page := appendChild [0] item page1_one_more.

(** The nested checklists, loaded, after a container was added to the inner
    one. *)
Definition page6_one_more : page := appendChild [0; 0] item (ready page6).

End Samples.

(** ** The document: paths and in-place updates *)

Section DomFacts.

Lemma node_ind (P : node → Prop) :
  (∀ a ks, Forall P ks → P (Node a ks)) → ∀ n, P n.
Proof.
  intros step. fix IH 1. intros [a ks]. apply step.
  induction ks as [|k ks IHks]; constructor; [apply IH | exact IHks].
Qed.

Lemma paths_node a ks : paths (Node a ks) = [] :: kid_paths 0 ks.
Proof. reflexivity. Qed.

Lemma kid_paths_cons i k ks :
  kid_paths i (k :: ks) = (cons i <$> paths k) ++ kid_paths (S i) ks.
Proof. reflexivity. Qed.

Lemma attrs_at_nil n : attrs_at [] n = Some (node_attrs n).
Proof. reflexivity. Qed.

Lemma attrs_at_cons i p n :
  attrs_at (i :: p) n = node_kids n !! i ≫= attrs_at p.
Proof. unfold attrs_at; simpl. by destruct (node_kids n !! i). Qed.

Lemma node_at_app p q n : node_at (p ++ q) n = node_at p n ≫= node_at q.
Proof.
  revert n; induction p as [|i p IH]; intros n; simpl; [done|].
  destruct (node_kids n !! i); simpl; auto.
Qed.

(** An element exists wherever a longer path leads to one. *)
Lemma node_at_prefix p q n :
  p `prefix_of` q → is_Some (node_at q n) → is_Some (node_at p n).
Proof.
  intros [r ->]. rewrite node_at_app.
  destruct (node_at p n); simpl; [eauto | intros [? ?]; done].
Qed.

Lemma attrs_at_is_Some p n : is_Some (attrs_at p n) ↔ is_Some (node_at p n).
Proof. unfold attrs_at. by rewrite fmap_is_Some. Qed.

(** The update changes the record at its path and no other. *)
Lemma attrs_at_update p f q n :
  attrs_at q (update p f n)
  = if decide (p = q) then f <$> attrs_at q n else attrs_at q n.
Proof.
  revert q n; induction p as [|i p IH]; intros q n.
  - destruct q as [|j q]; [done|]. rewrite !attrs_at_cons. by case_decide.
  - destruct q as [|j q]; [by case_decide|].
    rewrite !attrs_at_cons. simpl. rewrite list_lookup_alter.
    destruct (decide (i = j)) as [->|Hij].
    + destruct (node_kids n !! j) as [k|]; simpl.
      * rewrite IH. repeat case_decide; congruence.
      * by case_decide.
    + case_decide; [congruence | done].
Qed.

Lemma attrs_at_update_eq p f n : attrs_at p (update p f n) = f <$> attrs_at p n.
Proof. rewrite attrs_at_update. by case_decide. Qed.

Lemma attrs_at_update_ne p f q n :
  p ≠ q → attrs_at q (update p f n) = attrs_at q n.
Proof. intros. rewrite attrs_at_update. by case_decide. Qed.

Lemma kid_paths_alter g i j ks :
  (∀ k, paths (g k) = paths k) → kid_paths j (alter g i ks) = kid_paths j ks.
Proof.
  intros Hg. revert i j; induction ks as [|k ks IH]; intros i j; [done|].
  destruct i as [|i]; simpl.
  - by rewrite Hg.
  - f_equal. apply IH.
Qed.

(** ... and leaves the tree as it is. *)
Lemma paths_update p f n : paths (update p f n) = paths n.
Proof.
  revert n; induction p as [|i p IH]; intros [a ks]; simpl; [done|].
  f_equal. by apply (kid_paths_alter _ i 0).
Qed.

Lemma elem_of_kid_paths q j ks :
  q ∈ kid_paths j ks ↔
  ∃ i q' k, q = (j + i) :: q' ∧ ks !! i = Some k ∧ q' ∈ paths k.
Proof.
  revert j; induction ks as [|k ks IH]; intros j.
  - simpl. split; [by intros ?%elem_of_nil | by intros (i & ? & ? & _ & ? & _)].
  - rewrite kid_paths_cons, elem_of_app, list_elem_of_fmap, IH. split.
    + intros [(q' & -> & Hq')|(i & q' & k' & -> & Hk' & Hq')].
      * exists 0, q', k. by rewrite Nat.add_0_r.
      * exists (S i), q', k'. split; [f_equal; lia | done].
    + intros ([|i] & q' & k' & -> & Hk' & Hq').
      * left. simpl in Hk'. injection Hk' as ->. exists q'.
        by rewrite Nat.add_0_r.
      * right. exists i, q', k'. split; [f_equal; lia | done].
Qed.

(** [paths] lists exactly the paths that lead to an element. *)
Lemma elem_of_paths q n : q ∈ paths n ↔ is_Some (node_at q n).
Proof.
  revert q; induction n as [a ks IH] using node_ind; intros q.
  rewrite paths_node, elem_of_cons, elem_of_kid_paths. split.
  - intros [->|(i & q' & k & -> & Hk & Hq')]; [by eexists|].
    simpl. rewrite Hk.
    eapply Forall_lookup_1 in IH; [|exact Hk]. by apply IH.
  - destruct q as [|i q']; [by left|]. simpl.
    destruct (ks !! i) as [k|] eqn:Hk; [|by intros [? ?]].
    intros Hq'. right. exists i, q', k. split_and!; [done..|].
    eapply Forall_lookup_1 in IH; [|exact Hk]. by apply IH.
Qed.

Lemma kid_paths_head_ge q j ks : q ∈ kid_paths j ks → ∃ i q', q = i :: q' ∧ (j ≤ i)%nat.
Proof.
  rewrite elem_of_kid_paths. intros (i & q' & _ & -> & _).
  exists (j + i), q'. split; [done | lia].
Qed.

Lemma NoDup_kid_paths j ks :
  Forall (fun k => NoDup (paths k)) ks → NoDup (kid_paths j ks).
Proof.
  intros H; revert j; induction H as [|k ks Hk _ IH]; intros j.
  - constructor.
  - rewrite kid_paths_cons. apply NoDup_app. split_and!.
    + apply NoDup_fmap; [|done]. intros ?? [=]; done.
    + intros q (q' & -> & _)%list_elem_of_fmap
             (i & q'' & [= <- _] & Hle)%kid_paths_head_ge. lia.
    + apply IH.
Qed.

(** No element is listed twice. *)
Lemma NoDup_paths n : NoDup (paths n).
Proof.
  induction n as [a ks IH] using node_ind.
  rewrite paths_node. constructor; [|by apply NoDup_kid_paths].
  intros (i & q' & [=] & _)%kid_paths_head_ge.
Qed.

End DomFacts.

(** ** Selectors under in-place updates *)

Section SelectorFacts.

Lemma cosmetic_keeps f c : cosmetic f → keeps f c.
Proof.
  intros Hf a. destruct (Hf a) as (Ht & Hc & Ha).
  unfold compound_matches. induction c as [|s c IH]; simpl; [done|].
  rewrite IH. f_equal. destruct s; simpl; by rewrite ?Ht, ?Hc, ?Ha.
Qed.

Lemma cosmetic_add_handler : cosmetic add_handler.
Proof. by intros a. Qed.

Lemma cosmetic_set_hidden h : cosmetic (set_hidden h).
Proof. by intros a. Qed.

Lemma cosmetic_toggle_hidden : cosmetic toggle_hidden.
Proof. by intros a. Qed.

Lemma elem_of_toggle_class x c a :
  c ≠ x → c ∈ classes (toggle_class_attrs x a) ↔ c ∈ classes a.
Proof.
  intros Hne. unfold toggle_class_attrs; simpl. case_bool_decide.
  - rewrite list_elem_of_filter. tauto.
  - rewrite elem_of_app, list_elem_of_singleton. tauto.
Qed.

(** Toggling a class does not disturb a compound that does not test it. *)
Lemma toggle_class_keeps x c :
  ByClass x ∉ c → keeps (toggle_class_attrs x) c.
Proof.
  intros Hx a. unfold compound_matches.
  induction c as [|s c IH]; simpl; [done|].
  rewrite IH by (intros ?; apply Hx; by right). f_equal.
  destruct s as [t|y|n v]; simpl; [done| |done].
  apply bool_decide_ext, elem_of_toggle_class.
  intros ->. apply Hx. by left.
Qed.

Lemma compound_at_update c p f d q :
  keeps f c → compound_at c (update p f d) q = compound_at c d q.
Proof.
  intros Hf. unfold compound_at. rewrite attrs_at_update.
  case_decide; [|done]. destruct (attrs_at q d); simpl; [apply Hf | done].
Qed.

Lemma existsb_ext' {A} (f g : A → bool) l :
  (∀ x, f x = g x) → existsb f l = existsb g l.
Proof. intros H. induction l; simpl; [done|]. by rewrite H, IHl. Qed.

Lemma chain_at_update rchain p f d q :
  Forall (keeps f) rchain →
  chain_at rchain (update p f d) q = chain_at rchain d q.
Proof.
  intros H; revert q; induction H as [|c rest Hc Hrest IH]; intros q; [done|].
  simpl. destruct rest as [|c' rest'].
  - by apply compound_at_update.
  - rewrite compound_at_update by done. f_equal. by apply existsb_ext'.
Qed.

Lemma matches_update sel p f d q :
  Forall (keeps f) sel → matches sel (update p f d) q = matches sel d q.
Proof. intros H. apply chain_at_update. by apply Forall_rev. Qed.

Lemma matches_apply_to sel f ps d q :
  Forall (keeps f) sel → matches sel (apply_to f ps d) q = matches sel d q.
Proof.
  intros H. unfold apply_to. revert d; induction ps as [|p ps IH]; intros d; [done|].
  simpl. rewrite IH. by apply matches_update.
Qed.

Lemma paths_apply_to f ps d : paths (apply_to f ps d) = paths d.
Proof.
  unfold apply_to. revert d; induction ps as [|p ps IH]; intros d; [done|].
  simpl. rewrite IH. apply paths_update.
Qed.

(** A path selected or found leads to an element, and no path is selected
    or found twice. *)
Lemma elem_of_select sel d q :
  q ∈ select sel d ↔ matches sel d q = true ∧ is_Some (node_at q d).
Proof. unfold select. by rewrite list_elem_of_filter, elem_of_paths. Qed.

Lemma NoDup_select sel d : NoDup (select sel d).
Proof. apply NoDup_filter, NoDup_paths. Qed.

Lemma elem_of_find sel d c q :
  q ∈ find sel d c ↔
  (c `prefix_of` q ∧ c ≠ q) ∧ matches sel d q = true ∧ is_Some (node_at q d).
Proof.
  unfold find, strict_prefix.
  rewrite list_elem_of_filter, elem_of_paths, andb_true_iff, andb_true_iff,
    negb_true_iff, bool_decide_eq_true, bool_decide_eq_false.
  tauto.
Qed.

Lemma NoDup_find sel d c : NoDup (find sel d c).
Proof. apply NoDup_filter, NoDup_paths. Qed.

(** Two documents with the same elements that agree on [sel] give the same
    jQuery sets. *)
Lemma select_ext sel d d' :
  paths d' = paths d → (∀ q, matches sel d' q = matches sel d q) →
  select sel d' = select sel d.
Proof.
  intros Hp Hm. unfold select. rewrite Hp.
  apply list_filter_iff. intros q. by rewrite Hm.
Qed.

Lemma find_ext sel d d' c :
  paths d' = paths d → (∀ q, matches sel d' q = matches sel d q) →
  find sel d' c = find sel d c.
Proof.
  intros Hp Hm. unfold find. rewrite Hp.
  apply list_filter_iff. intros q. by rewrite Hm.
Qed.

(** What [apply_to] does to each record. *)
Lemma attrs_at_apply_to f ps q d :
  NoDup ps →
  attrs_at q (apply_to f ps d)
  = if decide (q ∈ ps) then f <$> attrs_at q d else attrs_at q d.
Proof.
  unfold apply_to. intros Hnd; revert d.
  induction Hnd as [|p ps Hp Hnd IH]; intros d; simpl.
  - done.
  - rewrite IH, attrs_at_update.
    destruct (decide (p = q)) as [->|Hne].
    + rewrite decide_False by done. rewrite decide_True by left. done.
    + destruct (decide (q ∈ ps)) as [Hin|Hnin].
      * rewrite decide_True by (by right). done.
      * rewrite decide_False; [done|]. intros [->|?]%elem_of_cons; done.
Qed.

End SelectorFacts.

(** ** What initialization does to each element *)

Section InitFacts.

Lemma init_effect_id a : init_effect 0 false a = a.
Proof.
  destruct a; unfold init_effect; simpl. by rewrite orb_false_r, Nat.add_0_r.
Qed.

Lemma init_effect_twice n1 h1 n2 h2 a :
  init_effect n2 h2 (init_effect n1 h1 a) = init_effect (n1 + n2) (h1 || h2) a.
Proof.
  unfold init_effect; simpl. by rewrite orb_assoc, Nat.add_assoc.
Qed.

Lemma cosmetic_init_effect n h : cosmetic (init_effect n h).
Proof. by intros a. Qed.

Lemma paths_init_container d c : paths (init_container d c) = paths d.
Proof.
  unfold init_container, hide, on_click. by rewrite paths_apply_to, paths_update.
Qed.

Lemma matches_init_container sel d c q :
  matches sel (init_container d c) q = matches sel d q.
Proof.
  unfold init_container, hide, on_click.
  rewrite matches_apply_to, matches_update; [done|..];
    apply Forall_forall; intros; apply cosmetic_keeps;
    [apply cosmetic_add_handler | apply cosmetic_set_hidden].
Qed.

Lemma covers_init_container d c c' q :
  covers (init_container d c) c' q = covers d c' q.
Proof.
  unfold covers. f_equal.
  rewrite (find_ext _ d); [done | apply paths_init_container |].
  intros; apply matches_init_container.
Qed.

Lemma attrs_at_init_container d c q :
  attrs_at q (init_container d c)
  = init_effect (if decide (c = q) then 1 else 0) (covers d c q) <$> attrs_at q d.
Proof.
  unfold init_container, hide.
  rewrite attrs_at_apply_to by apply NoDup_find.
  rewrite (find_ext _ d (on_click c d)); cycle 1.
  { apply paths_update. }
  { intros. apply matches_update, Forall_forall. intros.
    apply cosmetic_keeps, cosmetic_add_handler. }
  unfold on_click, covers. rewrite attrs_at_update.
  destruct (decide (q ∈ find sel_pre d c)) as [Hin|Hnin].
  - rewrite bool_decide_eq_true_2 by done.
    apply elem_of_find in Hin as [[_ Hne] _].
    destruct (attrs_at q d) as [a|]; simpl; [|by repeat case_decide].
    repeat case_decide; try done. f_equal.
    destruct a; unfold init_effect, set_hidden; simpl.
    by rewrite orb_true_r, Nat.add_0_r.
  - rewrite bool_decide_eq_false_2 by done.
    destruct (attrs_at q d) as [a|]; simpl; repeat case_decide; simpl; try done.
    + f_equal. destruct a; unfold init_effect, add_handler; simpl.
      by rewrite orb_false_r, Nat.add_1_r.
    + by rewrite init_effect_id.
Qed.

Lemma occurrences_NoDup q l :
  NoDup l → occurrences q l = if decide (q ∈ l) then 1 else 0.
Proof.
  unfold occurrences. induction 1 as [|c l Hc Hnd IH]; [done|].
  rewrite filter_cons. destruct (decide (c = q)) as [->|Hne]; simpl.
  - rewrite IH. rewrite decide_False by done. by rewrite decide_True by left.
  - rewrite IH. destruct (decide (q ∈ l)).
    + by rewrite decide_True by (by right).
    + rewrite decide_False; [done|]. intros [->|?]%elem_of_cons; done.
Qed.

Lemma paths_fold_init l d : paths (fold_left init_container l d) = paths d.
Proof.
  revert d; induction l as [|c l IH]; intros d; simpl; [done|].
  by rewrite IH, paths_init_container.
Qed.

Lemma matches_fold_init sel l d q :
  matches sel (fold_left init_container l d) q = matches sel d q.
Proof.
  revert d; induction l as [|c l IH]; intros d; simpl; [done|].
  by rewrite IH, matches_init_container.
Qed.

Lemma attrs_at_fold_init l d q :
  attrs_at q (fold_left init_container l d)
  = init_effect (occurrences q l) (existsb (fun c => covers d c q) l)
      <$> attrs_at q d.
Proof.
  revert d; induction l as [|c l IH]; intros d; simpl.
  - destruct (attrs_at q d); simpl; [|done]. by rewrite init_effect_id.
  - rewrite IH, attrs_at_init_container.
    rewrite (existsb_ext' _ (fun c' => covers d c' q))
      by (intros; apply covers_init_container).
    destruct (attrs_at q d) as [a|]; simpl; [|done].
    rewrite init_effect_twice. unfold occurrences. rewrite filter_cons.
    by destruct (decide (c = q)).
Qed.

(** Initialization keeps the tree and what every selector sees. *)
Lemma paths_initCollapsible d : paths (initCollapsible d) = paths d.
Proof. apply paths_fold_init. Qed.

Lemma matches_initCollapsible sel d q :
  matches sel (initCollapsible d) q = matches sel d q.
Proof. apply matches_fold_init. Qed.

Lemma select_initCollapsible sel d :
  select sel (initCollapsible d) = select sel d.
Proof.
  apply select_ext; [apply paths_initCollapsible|].
  intros; apply matches_initCollapsible.
Qed.

Lemma find_initCollapsible sel d c :
  find sel (initCollapsible d) c = find sel d c.
Proof.
  apply find_ext; [apply paths_initCollapsible|].
  intros; apply matches_initCollapsible.
Qed.

(** One run of [initCollapsible]: every container gets one more handler,
    every code block inside a container is hidden, nothing else changes. *)
Lemma attrs_at_initCollapsible d q :
  attrs_at q (initCollapsible d)
  = init_effect (bound d q) (covered d q) <$> attrs_at q d.
Proof.
  unfold initCollapsible. rewrite attrs_at_fold_init.
  destruct (attrs_at q d) as [a|] eqn:Ha; simpl; [|done].
  rewrite occurrences_NoDup by apply NoDup_select.
  unfold bound, covered. do 2 f_equal.
  assert (is_Some (node_at q d)) by (apply attrs_at_is_Some; eauto).
  case_decide as Hq; rewrite elem_of_select in Hq.
  - destruct Hq as [-> _]. done.
  - destruct (matches sel_container d q); [|done]. destruct Hq; done.
Qed.

Lemma covered_initCollapsible d q : covered (initCollapsible d) q = covered d q.
Proof.
  unfold covered, covers. rewrite select_initCollapsible.
  apply existsb_ext'. intros c. by rewrite find_initCollapsible.
Qed.

Lemma bound_initCollapsible d q : bound (initCollapsible d) q = bound d q.
Proof. unfold bound. by rewrite matches_initCollapsible. Qed.

(** [k] runs in a row. *)
Lemma paths_iter_init k d : paths (Nat.iter k initCollapsible d) = paths d.
Proof. induction k; simpl; [done|]. by rewrite paths_initCollapsible. Qed.

Lemma matches_iter_init sel k d q :
  matches sel (Nat.iter k initCollapsible d) q = matches sel d q.
Proof. induction k; simpl; [done|]. by rewrite matches_initCollapsible. Qed.

Lemma attrs_at_iter_init k d q :
  attrs_at q (Nat.iter k initCollapsible d)
  = init_effect (k * bound d q) (bool_decide (0 < k)%nat && covered d q)
      <$> attrs_at q d.
Proof.
  induction k as [|k IH]; simpl.
  - destruct (attrs_at q d); simpl; [|done]. by rewrite init_effect_id.
  - rewrite attrs_at_initCollapsible, IH.
    assert (bound (Nat.iter k initCollapsible d) q = bound d q) as ->.
    { unfold bound. by rewrite matches_iter_init. }
    assert (covered (Nat.iter k initCollapsible d) q = covered d q) as ->.
    { clear IH. induction k; simpl; [done|]. by rewrite covered_initCollapsible. }
    destruct (attrs_at q d) as [a|]; simpl; [|done].
    rewrite init_effect_twice. f_equal. f_equal; [lia|].
    destruct (covered d q); repeat case_bool_decide; simpl; try done; lia.
Qed.

End InitFacts.

(** ** What a click does *)

Section ClickFacts.

Lemma set_document_same s : set_document (document s) s = s.
Proof. by destruct s. Qed.

Lemma click_handler_ignored this e s :
  ignored e s = true → click_handler this e s = (s, e).
Proof. unfold click_handler. by intros ->. Qed.

Lemma click_handler_toggles this e s :
  ignored e s = false →
  click_handler this e s
  = (set_document (toggled this (document s)) s, stopPropagation e).
Proof. unfold click_handler. by intros ->. Qed.

Ltac not_tested :=
  apply toggle_class_keeps;
  let H := fresh in
  intros H; repeat (apply elem_of_cons in H as [H|H]; [discriminate H|]);
  by apply elem_of_nil in H.

Lemma keeps_active_sel_pre : Forall (keeps (toggle_class_attrs "active")) sel_pre.
Proof. apply Forall_cons; split; [not_tested | apply Forall_nil_2]. Qed.

Lemma keeps_active_sel_checkbox :
  Forall (keeps (toggle_class_attrs "active")) sel_checkbox.
Proof. apply Forall_cons; split; [not_tested | apply Forall_nil_2]. Qed.

Lemma keeps_active_sel_container :
  Forall (keeps (toggle_class_attrs "active")) sel_container.
Proof.
  apply Forall_cons; split; [not_tested|].
  apply Forall_cons; split; [not_tested | apply Forall_nil_2].
Qed.

Lemma keeps_active_sel_checklist :
  Forall (keeps (toggle_class_attrs "active")) sel_checklist.
Proof. apply Forall_cons; split; [not_tested | apply Forall_nil_2]. Qed.

Lemma paths_toggled this d : paths (toggled this d) = paths d.
Proof.
  unfold toggled, slideToggle, toggleClass.
  by rewrite paths_apply_to, paths_update.
Qed.

(** The toggles keep what a selector sees, provided it does not test the
    class [active]. *)
Lemma matches_toggled sel this d q :
  Forall (keeps (toggle_class_attrs "active")) sel →
  matches sel (toggled this d) q = matches sel d q.
Proof.
  intros H. unfold toggled, slideToggle, toggleClass.
  rewrite matches_apply_to, matches_update; [done..|].
  apply Forall_forall. intros. apply cosmetic_keeps, cosmetic_toggle_hidden.
Qed.

Lemma find_pre_toggled this d c :
  find sel_pre (toggled this d) c = find sel_pre d c.
Proof.
  apply find_ext; [apply paths_toggled|].
  intros. apply matches_toggled, keeps_active_sel_pre.
Qed.

Lemma select_container_toggled this d :
  select sel_container (toggled this d) = select sel_container d.
Proof.
  apply select_ext; [apply paths_toggled|].
  intros. apply matches_toggled, keeps_active_sel_container.
Qed.

Lemma attrs_at_toggled this d q :
  attrs_at q (toggled this d)
  = toggle_effect (bool_decide (this = q)) (covers d this q) <$> attrs_at q d.
Proof.
  unfold toggled, slideToggle.
  rewrite attrs_at_apply_to by apply NoDup_find.
  rewrite (find_ext _ d (toggleClass "active" this d)); cycle 1.
  { apply paths_update. }
  { intros. apply matches_update, keeps_active_sel_pre. }
  unfold toggleClass, covers, toggle_effect. rewrite attrs_at_update.
  destruct (attrs_at q d) as [a|]; simpl; [|by repeat case_decide].
  repeat case_decide; repeat case_bool_decide; simpl; done.
Qed.

Lemma ignored_toggled this e s :
  ignored e (set_document (toggled this (document s)) s) = ignored e s.
Proof.
  unfold ignored, jq_is; simpl.
  by rewrite !matches_toggled
    by (apply keeps_active_sel_checkbox || apply keeps_active_sel_pre).
Qed.

Lemma ignored_stopPropagation e s : ignored (stopPropagation e) s = ignored e s.
Proof. done. Qed.

(** The handlers of one element, when the click is ignored ... *)
Lemma run_handlers_ignored k this e s :
  ignored e s = true → run_handlers k this e s = (s, e).
Proof.
  intros H. induction k as [|k IH]; simpl; [done|].
  by rewrite click_handler_ignored.
Qed.

(** ... and when it is not: each bound copy toggles once more. *)
Lemma run_handlers_toggles k this e s :
  ignored e s = false →
  run_handlers k this e s
  = (set_document (Nat.iter k (toggled this) (document s)) s,
     if k is 0 then e else stopPropagation e).
Proof.
  revert e s; induction k as [|k IH]; intros e s H; simpl.
  - by rewrite set_document_same.
  - rewrite click_handler_toggles by done.
    rewrite IH by (by rewrite ignored_stopPropagation, ignored_toggled).
    simpl. f_equal.
    + unfold set_document; simpl. f_equal.
      clear. induction k; simpl; [done|]. by rewrite IHk.
    + by destruct k.
Qed.

Lemma bubble_ignored n e s : ignored e s = true → bubble n e s = (s, e).
Proof.
  intros H. induction n as [|n IH]; simpl;
    rewrite run_handlers_ignored by done; [done|].
  rewrite IH. by destruct (propagation_stopped e).
Qed.

(** Bubbling ends at the first element that has a handler bound. *)
Lemma bubble_stops_at n e s :
  ignored e s = false →
  (0 < handlers_at (take n (target e)) (document s))%nat →
  bubble n e s
  = run_handlers (handlers_at (take n (target e)) (document s))
                 (take n (target e)) e s.
Proof.
  intros Hi Hk. destruct n as [|n]; simpl.
  - by destruct (run_handlers _ _ _ _).
  - rewrite run_handlers_toggles by done.
    destruct (handlers_at _ _) as [|k]; [lia|]. done.
Qed.

(** Elements without a handler let the event pass. *)
Lemma bubble_passes n e s :
  handlers_at (take (S n) (target e)) (document s) = 0%nat →
  propagation_stopped e = false →
  bubble (S n) e s = bubble n e s.
Proof. intros Hk He. simpl. rewrite Hk. simpl. by rewrite He. Qed.

Lemma iter_negb k b : Nat.iter k negb b = if Nat.even k then b else negb b.
Proof.
  induction k as [|k IH]; [done|].
  change (Nat.iter (S k) negb b) with (negb (Nat.iter k negb b)).
  rewrite IH, Nat.even_succ, <- Nat.negb_even.
  by destruct (Nat.even k), b.
Qed.

End ClickFacts.

(** ** Re-initialization through [DOMNodeInserted] *)

Section InsertedFacts.

Lemma fold_left_const {A B} (F : A → A) (l : list B) (a : A) :
  fold_left (fun a _ => F a) l a = Nat.iter (length l) F a.
Proof.
  revert a; induction l as [|x l IH]; intros a; simpl; [done|].
  rewrite IH. symmetry. apply Nat.iter_succ_r.
Qed.

Lemma iter_iter {A} (F : A → A) m n (a : A) :
  Nat.iter m (Nat.iter n F) a = Nat.iter (m * n) F a.
Proof.
  induction m as [|m IH]; simpl; [done|]. by rewrite Nat.iter_add, IH.
Qed.

Lemma iter_node_inserted_handler n s :
  Nat.iter n node_inserted_handler s
  = set_document (Nat.iter n initCollapsible (document s)) s.
Proof.
  induction n as [|n IH]; simpl; [by rewrite set_document_same|].
  rewrite IH. done.
Qed.

Lemma dispatch_node_inserted_iter t s :
  dispatch_node_inserted t s
  = set_document (Nat.iter (reinit_count t s) initCollapsible (document s)) s.
Proof.
  unfold dispatch_node_inserted, reinit_count.
  by rewrite fold_left_const, iter_iter, iter_node_inserted_handler.
Qed.

Lemma covered_true d q :
  covered d q = true ↔
  ∃ c, c ∈ select sel_container d ∧ q ∈ find sel_pre d c.
Proof.
  unfold covered, covers. rewrite existsb_exists.
  setoid_rewrite <- list_elem_of_In. setoid_rewrite bool_decide_eq_true. done.
Qed.

Lemma hidden_init_effect n h a : hidden (init_effect n h a) = hidden a || h.
Proof. done. Qed.

(** One run hides the code blocks of the containers it finds. *)
Lemma hidden_after_init d c q :
  c ∈ select sel_container d →
  q ∈ find sel_pre d c →
  hidden <$> attrs_at q (initCollapsible d) = Some true.
Proof.
  intros Hc Hq. rewrite attrs_at_initCollapsible.
  assert (covered d q = true) as -> by (apply covered_true; eauto).
  apply elem_of_find in Hq as (_ & _ & Hq%attrs_at_is_Some).
  destruct Hq as [a ->]. simpl. by rewrite orb_true_r.
Qed.

End InsertedFacts.

(** ** Initialization *)

Section Initialization.

(** C2. After [initCollapsible] has run, every code block ([pre]) inside
    every container the marker selector matches is in the hidden display
    state. *)
Theorem init_hides_code_blocks d c q :
  c ∈ select sel_container (initCollapsible d) →
  q ∈ find sel_pre (initCollapsible d) c →
  hidden <$> attrs_at q (initCollapsible d) = Some true.
Proof.
  rewrite select_initCollapsible, find_initCollapsible.
  apply hidden_after_init.
Qed.

(** On the first sample page: the code block of its container. *)
Lemma init_hides_code_blocks_witness :
  [0; 0] ∈ select sel_container (initCollapsible (document Samples.page1))
  ∧ [0; 0; 2] ∈ find sel_pre (initCollapsible (document Samples.page1)) [0; 0]
  ∧ hidden <$> attrs_at [0; 0; 2] (initCollapsible (document Samples.page1))
    = Some true.
Proof.
  assert ([0; 0] ∈ select sel_container
            (initCollapsible (document Samples.page1))) as H1
    by (vm_compute; repeat constructor).
  assert ([0; 0; 2] ∈ find sel_pre
            (initCollapsible (document Samples.page1)) [0; 0]) as H2
    by (vm_compute; repeat constructor).
  split; [exact H1 | split; [exact H2|]].
  exact (init_hides_code_blocks (document Samples.page1) [0; 0] [0; 0; 2] H1 H2).
Defined.

Lemma select_iter_init sel k d :
  select sel (Nat.iter k initCollapsible d) = select sel d.
Proof.
  apply select_ext; [apply paths_iter_init|]. intros; apply matches_iter_init.
Qed.

Lemma find_iter_init sel k d c :
  find sel (Nat.iter k initCollapsible d) c = find sel d c.
Proof.
  apply find_ext; [apply paths_iter_init|]. intros; apply matches_iter_init.
Qed.

(** Where every code block inside a container is hidden already, a run of
    initialization changes handler counts and nothing else. *)
Lemma init_display_unchanged d q a :
  attrs_at q d = Some a →
  (covered d q = true → hidden a = true) →
  attrs_at q (initCollapsible d) = Some (init_effect (bound d q) false a).
Proof.
  intros Ha Hh. rewrite attrs_at_initCollapsible, Ha. simpl. f_equal.
  unfold init_effect. f_equal.
  destruct (covered d q); [|done]. rewrite Hh by done. done.
Qed.

(** C4. Re-initialization is idempotent on visibility: a container whose
    code blocks are hidden keeps them hidden through any number of further
    runs of [initCollapsible], and stays the same container with the same
    code blocks. *)
Theorem reinit_keeps_hidden n d c :
  c ∈ select sel_container d →
  (∀ q, q ∈ find sel_pre d c → hidden <$> attrs_at q d = Some true) →
  c ∈ select sel_container (Nat.iter n initCollapsible d)
  ∧ find sel_pre (Nat.iter n initCollapsible d) c = find sel_pre d c
  ∧ ∀ q, q ∈ find sel_pre (Nat.iter n initCollapsible d) c →
         hidden <$> attrs_at q (Nat.iter n initCollapsible d) = Some true.
Proof.
  intros Hc Hh. rewrite select_iter_init, find_iter_init.
  split_and!; [done..|]. intros q Hq.
  rewrite attrs_at_iter_init. specialize (Hh q Hq).
  destruct (attrs_at q d) as [a|]; simpl in *; [|done].
  injection Hh as ->. done.
Qed.

(** On the first sample page: three more runs after the first. *)
Lemma reinit_keeps_hidden_witness :
  find sel_pre
    (Nat.iter 3 initCollapsible (initCollapsible (document Samples.page1))) [0; 0]
  = [[0; 0; 2]]
  ∧ hidden <$> attrs_at [0; 0; 2]
      (Nat.iter 3 initCollapsible (initCollapsible (document Samples.page1)))
    = Some true.
Proof.
  assert ([0; 0] ∈ select sel_container
            (initCollapsible (document Samples.page1))) as H1
    by (vm_compute; repeat constructor).
  assert (∀ q, q ∈ find sel_pre (initCollapsible (document Samples.page1)) [0; 0] →
               hidden <$> attrs_at q (initCollapsible (document Samples.page1))
               = Some true) as H2.
  { intros q Hq. vm_compute in Hq.
    apply list_elem_of_singleton in Hq as ->. reflexivity. }
  destruct (reinit_keeps_hidden 3 _ _ H1 H2) as (_ & Hf & Hh).
  split; [reflexivity|]. apply Hh. rewrite Hf. vm_compute. repeat constructor.
Defined.

(** C10. A [DOMNodeInserted] event under a checklist re-runs
    initialization: afterwards the code blocks of every container are
    hidden, those of expanded containers included, and no element's class
    list has changed, so an expanded container keeps its [active] class
    over a hidden code block. The sample page shows such a container. *)
Theorem reinit_hides_keeps_active t s :
  (0 < inserted_handlers s)%nat →
  delegate_targets sel_checklist (document s) t ≠ [] →
  (∀ c q, c ∈ select sel_container (document (dispatch_node_inserted t s)) →
          q ∈ find sel_pre (document (dispatch_node_inserted t s)) c →
          hidden <$> attrs_at q (document (dispatch_node_inserted t s))
          = Some true)
  ∧ (∀ p, classes <$> attrs_at p (document (dispatch_node_inserted t s))
          = classes <$> attrs_at p (document s))
  ∧ (classes <$> attrs_at [0; 0]
       (document (appendChild [0] (Samples.elem "span" [] [])
                    (click [0; 0] (ready Samples.page1))))
     = Some ["container"; "collapsible"; "active"]
     ∧ hidden <$> attrs_at [0; 0; 2]
         (document (appendChild [0] (Samples.elem "span" [] [])
                      (click [0; 0] (ready Samples.page1))))
       = Some true
     ∧ hidden <$> attrs_at [0; 0; 2]
         (document (click [0; 0] (ready Samples.page1)))
       = Some false).
Proof.
  intros Hn Ht. rewrite dispatch_node_inserted_iter. simpl.
  assert (0 < reinit_count t s)%nat as Hk.
  { unfold reinit_count.
    destruct (delegate_targets sel_checklist (document s) t); [done|].
    simpl. lia. }
  split_and!; [| |reflexivity..].
  - intros c q. rewrite select_iter_init, find_iter_init. intros Hc Hq.
    rewrite attrs_at_iter_init.
    assert (covered (document s) q = true) as -> by (apply covered_true; eauto).
    rewrite bool_decide_eq_true_2 by done.
    apply elem_of_find in Hq as (_ & _ & Hq%attrs_at_is_Some).
    destruct Hq as [a ->]. simpl. by rewrite orb_true_r.
  - intros p. rewrite attrs_at_iter_init.
    by destruct (attrs_at p (document s)).
Qed.

(** On the first sample page, expanded by a click, when a [span] is added
    to its checklist. *)
Lemma reinit_hides_keeps_active_witness :
  classes <$> attrs_at [0; 0]
    (document (dispatch_node_inserted [0; 1]
       (set_document
          (append_child [0] (Samples.elem "span" [] [])
             (document (click [0; 0] (ready Samples.page1))))
          (click [0; 0] (ready Samples.page1)))))
  = Some ["container"; "collapsible"; "active"]
  ∧ hidden <$> attrs_at [0; 0; 2]
      (document (dispatch_node_inserted [0; 1]
         (set_document
            (append_child [0] (Samples.elem "span" [] [])
               (document (click [0; 0] (ready Samples.page1))))
            (click [0; 0] (ready Samples.page1)))))
    = Some true.
Proof.
  pose proof (reinit_hides_keeps_active [0; 1]
    (set_document
       (append_child [0] (Samples.elem "span" [] [])
          (document (click [0; 0] (ready Samples.page1))))
       (click [0; 0] (ready Samples.page1)))) as H.
  destruct H as (Hh & Hc & _).
  - vm_compute. lia.
  - vm_compute. discriminate.
  - split.
    + rewrite Hc. reflexivity.
    + apply (Hh [0; 0]); vm_compute; repeat constructor.
Defined.

(** *** Which elements initialization recognizes *)

Lemma compound_at_class x d q :
  compound_at [ByClass x] d q = true ↔ has_class x d q.
Proof.
  unfold compound_at, has_class. destruct (attrs_at q d) as [a|]; simpl.
  - rewrite andb_true_r, bool_decide_eq_true. split; [eauto|].
    by intros (? & [= <-] & ?).
  - split; [done | by intros (? & ? & _)].
Qed.

Lemma compound_at_two_classes x y d q :
  compound_at [ByClass x; ByClass y] d q = true ↔
  has_class x d q ∧ has_class y d q.
Proof.
  unfold compound_at, has_class. destruct (attrs_at q d) as [a|]; simpl.
  - rewrite andb_true_r, andb_true_iff, !bool_decide_eq_true. split.
    + intros [? ?]; split; eauto.
    + by intros [(? & [= <-] & ?) (? & [= <-] & ?)].
  - split; [done | by intros [(? & ? & _) _]].
Qed.

Lemma elem_of_ancestors p (q : path) :
  p ∈ ancestors q ↔ p `prefix_of` q ∧ p ≠ q.
Proof.
  unfold ancestors. rewrite list_elem_of_fmap. split.
  - intros (k & -> & Hk%elem_of_seq). split; [apply prefix_take|].
    intros Heq. apply (f_equal length) in Heq.
    rewrite length_take in Heq. lia.
  - intros [[r ->] Hne]. exists (length p). split.
    + by rewrite take_app_length.
    + apply elem_of_seq. rewrite length_app.
      destruct r; [by rewrite app_nil_r in Hne | simpl; lia].
Qed.

Lemma matches_sel_container d q :
  matches sel_container d q = true ↔
  has_class "container" d q ∧ has_class "collapsible" d q
  ∧ ∃ p, (p `prefix_of` q ∧ p ≠ q) ∧ has_class "checklist" d p.
Proof.
  unfold matches, sel_container. simpl.
  rewrite andb_true_iff, compound_at_two_classes, existsb_exists.
  setoid_rewrite <- list_elem_of_In. setoid_rewrite elem_of_ancestors.
  setoid_rewrite compound_at_class. tauto.
Qed.

Lemma handlers_at_initCollapsible d q :
  handlers_at q (initCollapsible d)
  = (handlers_at q d + (if attrs_at q d is Some _ then bound d q else 0))%nat.
Proof.
  unfold handlers_at. rewrite attrs_at_initCollapsible.
  destruct (attrs_at q d); simpl; [done | lia].
Qed.

(** C7, as the code has it. Initialization recognizes an element exactly
    when it carries both [container] and [collapsible] and lies inside an
    element carrying [checklist]. The recognized elements are those that get
    one more click handler, and the code blocks inside them are hidden. *)
Theorem recognized_iff d q :
  (q ∈ select sel_container d ↔
     has_class "container" d q ∧ has_class "collapsible" d q
     ∧ ∃ p, (p `prefix_of` q ∧ p ≠ q) ∧ has_class "checklist" d p)
  ∧ (q ∈ select sel_container d ↔
       handlers_at q (initCollapsible d) = S (handlers_at q d))
  ∧ (q ∈ select sel_container d →
       ∀ b, b ∈ find sel_pre d q →
            hidden <$> attrs_at b (initCollapsible d) = Some true).
Proof.
  split_and!.
  - rewrite elem_of_select, matches_sel_container. split; [tauto|].
    intros (Hc & ? & ?). split_and!; [done..|].
    destruct Hc as (a & Ha & _). apply attrs_at_is_Some. eauto.
  - rewrite handlers_at_initCollapsible, elem_of_select, <- attrs_at_is_Some.
    unfold bound. split.
    + intros [-> [a ->]]. lia.
    + destruct (attrs_at q d); [|lia].
      destruct (matches sel_container d q); [eauto | lia].
  - intros Hq b Hb. by apply (hidden_after_init d q b).
Qed.

(** C7 as stated fails: an element with both marker classes that is not
    inside a checklist is left alone. *)
Lemma marker_classes_outside_checklist :
  has_class "container" (document Samples.page3) [0; 0]
  ∧ has_class "collapsible" (document Samples.page3) [0; 0]
  ∧ ([0; 0] ∉ select sel_container (document Samples.page3))
  ∧ initCollapsible (document Samples.page3) = document Samples.page3
  ∧ ¬ ([0; 0] ∈ select sel_container (document Samples.page3) ↔
       has_class "container" (document Samples.page3) [0; 0]
       ∧ has_class "collapsible" (document Samples.page3) [0; 0]).
Proof.
  assert (has_class "container" (document Samples.page3) [0; 0]) as H1
    by (eexists; split; [reflexivity|]; repeat constructor).
  assert (has_class "collapsible" (document Samples.page3) [0; 0]) as H2
    by (eexists; split; [reflexivity|]; repeat constructor).
  assert ([0; 0] ∉ select sel_container (document Samples.page3)) as H3
    by (vm_compute; apply not_elem_of_nil).
  split_and!; [done..|]. intros [_ H]. apply H3, H. done.
Qed.

(** *** Initialization without anything to hide *)

(** C9, as the code has it. Where no element matches the container
    selector, initialization changes nothing. Where the containers hold no
    code block, it keeps the tree and every element's tag, classes,
    attributes and display, and binds the click handler to each container. *)
Theorem init_without_targets d :
  (select sel_container d = [] → initCollapsible d = d)
  ∧ ((∀ c, c ∈ select sel_container d → find sel_pre d c = []) →
     paths (initCollapsible d) = paths d
     ∧ ∀ q, attrs_at q (initCollapsible d)
            = init_effect (bound d q) false <$> attrs_at q d).
Proof.
  split.
  - unfold initCollapsible. by intros ->.
  - intros Hnone. split; [apply paths_initCollapsible|]. intros q.
    destruct (attrs_at q d) as [a|] eqn:Ha.
    + rewrite (init_display_unchanged d q a); [done..|].
      intros (c & Hc & Hq)%covered_true. rewrite (Hnone c Hc) in Hq.
      by apply elem_of_nil in Hq.
    + by rewrite attrs_at_initCollapsible, Ha.
Qed.

(** C9 as stated fails for a container without a code block: the page is
    not left as it was, the container has a handler bound, and a click
    then toggles its [active] class. *)
Lemma init_binds_without_code_block :
  select sel_container (document Samples.page4) = [[0; 0]]
  ∧ find sel_pre (document Samples.page4) [0; 0] = []
  ∧ initCollapsible (document Samples.page4) ≠ document Samples.page4
  ∧ handlers_at [0; 0] (document Samples.page4) = 0%nat
  ∧ handlers_at [0; 0] (initCollapsible (document Samples.page4)) = 1%nat
  ∧ classes <$> attrs_at [0; 0]
      (document (click [0; 0; 0] (ready Samples.page4)))
    = Some ["container"; "collapsible"; "active"].
Proof. split_and!; [reflexivity..|discriminate|reflexivity|reflexivity|reflexivity]. Qed.

(** *** The elements shown and hidden *)

(** C6, as the code has it. The initial hide and the toggle of a click
    both go to [find('pre')] of the container: every [pre] element below
    the container, at any depth, however many there are. Those elements are
    hidden by initialization and flipped by the click; the display of every
    other element is left as it is. *)
Theorem show_hide_targets d c q a :
  attrs_at q d = Some a →
  (q ∈ find sel_pre d c ↔ (c `prefix_of` q ∧ c ≠ q) ∧ tag a = "pre")
  ∧ hidden <$> attrs_at q (init_container d c)
    = Some (if bool_decide (q ∈ find sel_pre d c) then true else hidden a)
  ∧ hidden <$> attrs_at q (toggled c d)
    = Some (if bool_decide (q ∈ find sel_pre d c) then negb (hidden a)
            else hidden a).
Proof.
  intros Ha. split_and!.
  - rewrite elem_of_find.
    change (matches sel_pre d q) with (compound_at [ByTag "pre"] d q).
    unfold compound_at. rewrite Ha; simpl.
    rewrite andb_true_r, bool_decide_eq_true.
    assert (is_Some (node_at q d)) by (apply attrs_at_is_Some; eauto). tauto.
  - rewrite attrs_at_init_container, Ha. unfold covers; simpl.
    case_bool_decide; [by rewrite orb_true_r | by rewrite orb_false_r].
  - rewrite attrs_at_toggled, Ha. unfold covers, toggle_effect; simpl.
    by repeat case_bool_decide.
Qed.

(** On the second sample page: the code block nested deeper. *)
Lemma show_hide_targets_witness :
  hidden <$> attrs_at [0; 0; 1; 0]
    (init_container (document Samples.page2) [0; 0]) = Some true
  ∧ hidden <$> attrs_at [0; 0; 1; 0]
      (toggled [0; 0] (document Samples.page2)) = Some true.
Proof.
  destruct (show_hide_targets (document Samples.page2) [0; 0] [0; 0; 1; 0]
              (Attrs "pre" [] [] false 0) eq_refl) as (_ & H1 & H2).
  split; [exact H1 | exact H2].
Defined.

(** C6 as stated fails: a container with two code blocks, one of them not
    a child but a deeper descendant, has both of them hidden by
    initialization and both shown by a click. *)
Lemma two_code_blocks_targeted :
  find sel_pre (document Samples.page2) [0; 0] = [[0; 0; 0]; [0; 0; 1; 0]]
  ∧ hidden <$> attrs_at [0; 0; 0] (initCollapsible (document Samples.page2))
    = Some true
  ∧ hidden <$> attrs_at [0; 0; 1; 0] (initCollapsible (document Samples.page2))
    = Some true
  ∧ hidden <$> attrs_at [0; 0; 0]
      (document (click [0; 0] (ready Samples.page2))) = Some false
  ∧ hidden <$> attrs_at [0; 0; 1; 0]
      (document (click [0; 0] (ready Samples.page2))) = Some false
  ∧ ¬ (∃ q, find sel_pre (document Samples.page2) [0; 0] = [q]).
Proof. split_and!; [reflexivity..|]. by intros [q [=]]. Qed.

End Initialization.

(** ** Clicks *)

Section Clicks.

Lemma ignored_true e s :
  ignored e s = true ↔
  jq_is sel_checkbox (document s) (target e) = true
  ∨ jq_is sel_pre (document s) (target e) = true
  ∨ selection s ≠ "".
Proof.
  unfold ignored, truthy.
  rewrite !orb_true_iff, negb_true_iff, bool_decide_eq_false. tauto.
Qed.

Lemma ignored_false e s :
  ignored e s = false ↔
  jq_is sel_checkbox (document s) (target e) = false
  ∧ jq_is sel_pre (document s) (target e) = false
  ∧ selection s = "".
Proof.
  unfold ignored, truthy.
  rewrite !orb_false_iff, negb_false_iff, bool_decide_eq_true. tauto.
Qed.

(** C3. A click whose target is a checkbox input or a [pre] element, or
    that comes while the selection is not empty, is ignored: the handler
    returns the page and the event as they were, for whatever container it
    runs, and so the whole dispatch of the click leaves the page unchanged. *)
Theorem ignored_click_changes_nothing this e s :
  jq_is sel_checkbox (document s) (target e) = true
  ∨ jq_is sel_pre (document s) (target e) = true
  ∨ selection s ≠ "" →
  click_handler this e s = (s, e) ∧ click (target e) s = s.
Proof.
  intros H%ignored_true. split; [by apply click_handler_ignored|].
  unfold click. by rewrite bubble_ignored.
Qed.

(** On the first sample page: a click on the checkbox. *)
Lemma ignored_click_changes_nothing_witness :
  click_handler [0; 0] (Event [0; 0; 0] false) (ready Samples.page1)
  = (ready Samples.page1, Event [0; 0; 0] false)
  ∧ click [0; 0; 0] (ready Samples.page1) = ready Samples.page1.
Proof.
  apply (ignored_click_changes_nothing [0; 0] (Event [0; 0; 0] false)
           (ready Samples.page1)).
  left. reflexivity.
Defined.

(** C8. A click that is not ignored toggles the [active] class of the
    container and the display of its code blocks, and the event the handler
    leaves behind has its propagation stopped. In the dispatch the event
    therefore ends at the container: the result is that of the container's
    own handlers, and no handler of an ancestor runs. *)
Theorem toggling_click_stops_propagation this e s :
  jq_is sel_checkbox (document s) (target e) = false →
  jq_is sel_pre (document s) (target e) = false →
  selection s = "" →
  click_handler this e s
  = (set_document
       (slideToggle (find sel_pre (toggleClass "active" this (document s)) this)
                    (toggleClass "active" this (document s))) s,
     Event (target e) true)
  ∧ ∀ n, (0 < handlers_at (take n (target e)) (document s))%nat →
         bubble n e s
         = run_handlers (handlers_at (take n (target e)) (document s))
                        (take n (target e)) e s
         ∧ propagation_stopped (bubble n e s).2 = true.
Proof.
  intros H1 H2 H3.
  assert (ignored e s = false) as Hi by (by apply ignored_false).
  split; [by rewrite click_handler_toggles|].
  intros n Hn. rewrite bubble_stops_at by done. split; [done|].
  rewrite run_handlers_toggles by done.
  by destruct (handlers_at _ _); [lia|].
Qed.

(** On the first sample page: a click on the label. *)
Lemma toggling_click_stops_propagation_witness :
  propagation_stopped
    (click_handler [0; 0] (Event [0; 0; 1] false) (ready Samples.page1)).2
  = true
  ∧ propagation_stopped
      (bubble 2 (Event [0; 0; 1] false) (ready Samples.page1)).2 = true.
Proof.
  destruct (toggling_click_stops_propagation [0; 0] (Event [0; 0; 1] false)
              (ready Samples.page1) eq_refl eq_refl eq_refl) as [H1 H2].
  split.
  - rewrite H1. reflexivity.
  - apply (H2 2). vm_compute. lia.
Defined.

(** *** Handlers bound more than once *)

Lemma covers_iter_toggled k this d c q :
  covers (Nat.iter k (toggled this) d) c q = covers d c q.
Proof.
  induction k as [|k IH]; simpl; [done|].
  unfold covers in *. by rewrite find_pre_toggled.
Qed.

Lemma attrs_at_iter_toggled k c d q :
  attrs_at q (Nat.iter k (toggled c) d)
  = Nat.iter k (toggle_effect (bool_decide (c = q)) (covers d c q))
      <$> attrs_at q d.
Proof.
  induction k as [|k IH]; simpl.
  - by destruct (attrs_at q d).
  - rewrite attrs_at_toggled, IH, covers_iter_toggled.
    by destruct (attrs_at q d).
Qed.

Lemma hidden_iter_toggle_effect k self below a :
  hidden (Nat.iter k (toggle_effect self below) a)
  = if below then Nat.iter k negb (hidden a) else hidden a.
Proof.
  induction k as [|k IH]; simpl; [by destruct below|].
  unfold toggle_effect at 1. destruct below, self; simpl; by rewrite IH.
Qed.

Lemma active_toggle_class x a :
  x ∈ classes (toggle_class_attrs x a) ↔ x ∉ classes a.
Proof.
  unfold toggle_class_attrs; simpl. case_bool_decide.
  - rewrite list_elem_of_filter. tauto.
  - rewrite elem_of_app, list_elem_of_singleton. tauto.
Qed.

Lemma active_iter_toggle_effect k below a :
  "active" ∈ classes (Nat.iter k (toggle_effect true below) a) ↔
  if Nat.even k then "active" ∈ classes a else "active" ∉ classes a.
Proof.
  induction k as [|k IH]; [done|].
  change (Nat.iter (S k) (toggle_effect true below) a)
    with (toggle_effect true below (Nat.iter k (toggle_effect true below) a)).
  assert (∀ x, classes (toggle_effect true below x)
               = classes (toggle_class_attrs "active" x)) as ->
    by (by destruct below).
  rewrite active_toggle_class, IH, Nat.even_succ, <- Nat.negb_even.
  destruct (Nat.even k); simpl; [done|].
  destruct (decide ("active" ∈ classes a)); tauto.
Qed.

Lemma classes_iter_toggle_effect_other k below a :
  classes (Nat.iter k (toggle_effect false below) a) = classes a.
Proof.
  induction k as [|k IH]; simpl; [done|].
  unfold toggle_effect at 1. by destruct below.
Qed.

(** Every run of initialization binds one more handler to a container. *)
Lemma handlers_at_iter_init k d c :
  c ∈ select sel_container d →
  handlers_at c (Nat.iter k initCollapsible d) = (handlers_at c d + k)%nat.
Proof.
  intros [Hm [a Ha]%attrs_at_is_Some]%elem_of_select.
  unfold handlers_at. rewrite attrs_at_iter_init, Ha. simpl.
  unfold bound. rewrite Hm. lia.
Qed.

(** After an insertion a container has as many more handlers as the event
    ran initialization. *)
Lemma handlers_after_insertion t s c :
  c ∈ select sel_container (document s) →
  handlers_at c (document (dispatch_node_inserted t s))
  = (handlers_at c (document s) + reinit_count t s)%nat.
Proof.
  intros Hc. rewrite dispatch_node_inserted_iter. simpl.
  by apply handlers_at_iter_init.
Qed.

(** A click that reaches a container with [k] handlers bound, and is not
    ignored, toggles [k] times. *)
Lemma click_toggles_once_per_handler n e s k :
  ignored e s = false →
  handlers_at (take n (target e)) (document s) = S k →
  (bubble n e s).1
  = set_document (Nat.iter (S k) (toggled (take n (target e))) (document s)) s.
Proof.
  intros Hi Hk. rewrite bubble_stops_at by (done || lia).
  rewrite run_handlers_toggles, Hk by done. done.
Qed.

(** With an even number of handlers the click undoes itself: every element
    has the display it had, and the container has [active] exactly if it
    had it. *)
Lemma even_toggles_undo k c d q a :
  Nat.even k = true →
  attrs_at q d = Some a →
  ∃ a', attrs_at q (Nat.iter k (toggled c) d) = Some a'
        ∧ hidden a' = hidden a
        ∧ ("active" ∈ classes a' ↔ "active" ∈ classes a).
Proof.
  intros Hk Ha. rewrite attrs_at_iter_toggled, Ha. simpl.
  eexists; split; [done|]. split.
  - rewrite hidden_iter_toggle_effect, iter_negb, Hk. by destruct (covers d c q).
  - case_bool_decide.
    + by rewrite active_iter_toggle_effect, Hk.
    + by rewrite classes_iter_toggle_effect_other.
Qed.

(** After a single run of initialization over a container that had no
    handler, a click that reaches it and is not ignored toggles once. *)
Lemma inserted_once_toggles_once t s n e :
  take n (target e) ∈ select sel_container (document s) →
  handlers_at (take n (target e)) (document s) = 0%nat →
  reinit_count t s = 1%nat →
  ignored e (dispatch_node_inserted t s) = false →
  (bubble n e (dispatch_node_inserted t s)).1
  = set_document
      (toggled (take n (target e)) (document (dispatch_node_inserted t s)))
      (dispatch_node_inserted t s).
Proof.
  intros Hc H0 H1 Hi.
  apply (click_toggles_once_per_handler n e _ 0 Hi).
  rewrite handlers_after_insertion by done. lia.
Qed.

(** C1 at a failing input. The sample page is loaded, a [span] is added to
    its checklist, and the label of the container is clicked with nothing
    selected. Initialization has then run twice over the container, which
    has two handlers bound; the first toggles the class and the code block,
    the second toggles them back, and the click leaves the page as it was. *)
Theorem click_after_reinit_toggles_twice :
  handlers_at [0; 0] (document Samples.page1_grown) = 2%nat
  ∧ ignored (Event [0; 0; 1] false) Samples.page1_grown = false
  ∧ attrs_at [0; 0] (document Samples.page1_grown)
    = Some (Attrs "div" ["container"; "collapsible"] [] false 2)
  ∧ hidden <$> attrs_at [0; 0; 2] (document Samples.page1_grown) = Some true
  ∧ attrs_at [0; 0]
      (document (click_handler [0; 0] (Event [0; 0; 1] false)
                   Samples.page1_grown).1)
    = Some (Attrs "div" ["container"; "collapsible"; "active"] [] false 2)
  ∧ hidden <$> attrs_at [0; 0; 2]
      (document (click_handler [0; 0] (Event [0; 0; 1] false)
                   Samples.page1_grown).1)
    = Some false
  ∧ click [0; 0; 1] Samples.page1_grown = Samples.page1_grown.
Proof. split_and!; reflexivity. Qed.

(** C5 at a failing input. One container, then another, is added to the
    checklist of the loaded sample page. After the first insertion the
    container present from the start has two handlers and the inserted one
    has one: the same click expands the inserted container and leaves the
    other collapsed. After the second insertion the container inserted
    first has two handlers in its turn, and its click leaves it collapsed,
    where the click on a container present from the start of a page that
    saw no insertion expands it. A single insertion into a checklist nested
    in another one binds two handlers at once, the delegated handler running
    for each of the two checklists. *)
Theorem inserted_container_differs_from_static :
  (handlers_at [0; 0] (document Samples.page1_one_more) = 2%nat
   ∧ handlers_at [0; 1] (document Samples.page1_one_more) = 1%nat
   ∧ attrs_at [0; 1] (document (click [0; 1] Samples.page1_one_more))
     = Some (Attrs "div" ["container"; "collapsible"; "active"] [] false 1)
   ∧ hidden <$> attrs_at [0; 1; 2]
       (document (click [0; 1] Samples.page1_one_more)) = Some false
   ∧ click [0; 0] Samples.page1_one_more = Samples.page1_one_more)
  ∧ (handlers_at [0; 1] (document Samples.page1_two_more) = 2%nat
     ∧ click [0; 1] Samples.page1_two_more = Samples.page1_two_more
     ∧ attrs_at [0; 0] (document (click [0; 0] (ready Samples.page1)))
       = Some (Attrs "div" ["container"; "collapsible"; "active"] [] false 1)
     ∧ hidden <$> attrs_at [0; 0; 2]
         (document (click [0; 0] (ready Samples.page1))) = Some false)
  ∧ (handlers_at [0; 0; 0] (document Samples.page6_one_more) = 2%nat
     ∧ click [0; 0; 0] Samples.page6_one_more = Samples.page6_one_more).
Proof. split_and!; reflexivity. Qed.

End Clicks.

(** ** Further properties of initialization *)

Section InitMore.

Lemma handlers_at_iter_any k d q :
  handlers_at q (Nat.iter k initCollapsible d)
  = (handlers_at q d
     + if bool_decide (q ∈ select sel_container d) then k else 0)%nat.
Proof.
  unfold handlers_at. rewrite attrs_at_iter_init.
  destruct (attrs_at q d) as [a|] eqn:Ha; simpl.
  - unfold bound. case_bool_decide as Hq; rewrite elem_of_select in Hq.
    + destruct Hq as [-> _]. lia.
    + destruct (matches sel_container d q); [|lia].
      destruct Hq. split; [done|]. apply attrs_at_is_Some. eauto.
  - case_bool_decide as Hq; [|done].
    apply elem_of_select in Hq as [_ Hq%attrs_at_is_Some].
    rewrite Ha in Hq. by destruct Hq.
Qed.

(** X1. Handlers pile up: [k] runs of [initCollapsible] bind [k] more click
    handlers to every container the selector matches and none to any other
    element. *)
Theorem handlers_pile_up k d q :
  handlers_at q (Nat.iter k initCollapsible d)
  = (handlers_at q d
     + if bool_decide (q ∈ select sel_container d) then k else 0)%nat.
Proof. apply handlers_at_iter_any. Qed.

(** X3. What one run of [initCollapsible] does, element by element: the
    tree, and every element's tag, classes and attributes, stay as they
    are; an element is hidden afterwards exactly if it was hidden before or
    is a [pre] below a matching container, so nothing is ever shown. *)
Theorem init_effect_on_elements d :
  paths (initCollapsible d) = paths d
  ∧ ∀ q, option_Forall2
           (fun a a' =>
              tag a' = tag a ∧ classes a' = classes a
              ∧ attributes a' = attributes a
              ∧ (hidden a' = true ↔
                 hidden a = true
                 ∨ ∃ c, c ∈ select sel_container d ∧ q ∈ find sel_pre d c))
           (attrs_at q d) (attrs_at q (initCollapsible d)).
Proof.
  split; [apply paths_initCollapsible|]. intros q.
  rewrite attrs_at_initCollapsible.
  destruct (attrs_at q d) as [a|]; simpl; constructor.
  split_and!; [done..|]. simpl.
  by rewrite orb_true_iff, covered_true.
Qed.

(** X10. A second run of [initCollapsible] changes nothing but handler
    counts: every element keeps the tag, classes, attributes and display the
    first run left it with. *)
Theorem second_init_only_binds d q :
  attrs_at q (initCollapsible (initCollapsible d))
  = init_effect (bound d q) false <$> attrs_at q (initCollapsible d).
Proof.
  rewrite (attrs_at_initCollapsible (initCollapsible d)).
  rewrite bound_initCollapsible, covered_initCollapsible.
  rewrite attrs_at_initCollapsible.
  destruct (attrs_at q d) as [a|]; simpl; [|done].
  f_equal. unfold init_effect; simpl. f_equal.
  by destruct (hidden a), (covered d q).
Qed.

End InitMore.

(** ** Further properties of clicks *)

Section ClickMore.

Lemma reached_spec n t d :
  match reached n t d with
  | Some m =>
      (m ≤ n)%nat ∧ (0 < handlers_at (take m t) d)%nat
      ∧ ∀ j, (m < j ≤ n)%nat → handlers_at (take j t) d = 0%nat
  | None => ∀ j, (j ≤ n)%nat → handlers_at (take j t) d = 0%nat
  end.
Proof.
  induction n as [|n IH]; simpl; case_bool_decide as Hn.
  - split_and!; [done..|]. intros; lia.
  - intros j Hj. replace j with 0%nat by lia. lia.
  - split_and!; [done..|]. intros; lia.
  - destruct (reached n t d) as [m|].
    + destruct IH as (? & ? & IH). split_and!; [lia | done |].
      intros j Hj. destruct (decide (j = S n)) as [->|]; [lia | apply IH; lia].
    + intros j Hj. destruct (decide (j = S n)) as [->|]; [lia | apply IH; lia].
Qed.

Lemma bubble_reached n e s :
  ignored e s = false → propagation_stopped e = false →
  bubble n e s
  = match reached n (target e) (document s) with
    | Some m =>
        run_handlers (handlers_at (take m (target e)) (document s))
                     (take m (target e)) e s
    | None => (s, e)
    end.
Proof.
  intros Hi He. induction n as [|n IH].
  - simpl reached. case_bool_decide as H0.
    + by apply bubble_stops_at.
    + assert (handlers_at (take 0 (target e)) (document s) = 0%nat) as Hz
        by lia.
      unfold bubble. by rewrite Hz.
  - simpl reached. case_bool_decide as Hn.
    + by apply bubble_stops_at.
    + rewrite bubble_passes by (done || lia). apply IH.
Qed.

(** The document after a click that is not ignored. *)
Lemma click_document t s :
  ignored (Event t false) s = false →
  click t s
  = match reached (length t) t (document s) with
    | Some m =>
        set_document
          (Nat.iter (handlers_at (take m t) (document s)) (toggled (take m t))
                    (document s)) s
    | None => s
    end.
Proof.
  intros Hi. unfold click. rewrite bubble_reached by done. simpl.
  destruct (reached _ _ _); [|done]. by rewrite run_handlers_toggles.
Qed.

Lemma paths_iter_toggled k c d : paths (Nat.iter k (toggled c) d) = paths d.
Proof. induction k; simpl; [done|]. by rewrite paths_toggled. Qed.

(** A click either leaves the page as it is or toggles, as often as it has
    handlers, the one element it reaches. *)
Lemma click_cases t s :
  click t s = s
  ∨ ∃ m, reached (length t) t (document s) = Some m
         ∧ ignored (Event t false) s = false
         ∧ click t s
           = set_document
               (Nat.iter (handlers_at (take m t) (document s))
                         (toggled (take m t)) (document s)) s.
Proof.
  destruct (ignored (Event t false) s) eqn:Hi.
  - left. unfold click. by rewrite bubble_ignored.
  - rewrite click_document by done.
    destruct (reached _ _ _) as [m|]; [right; eauto | by left].
Qed.

(** X5. A click that is not ignored runs the handlers of one element only:
    the nearest element, from the target upwards, that has a handler bound.
    The page afterwards is the page toggled once for each of that element's
    handlers; elements nearer to the target have no handler, and when no
    element of the branch has one the page is left as it is. *)
Theorem click_runs_nearest_handlers t s :
  ignored (Event t false) s = false →
  match reached (length t) t (document s) with
  | Some m =>
      (m ≤ length t)%nat
      ∧ (0 < handlers_at (take m t) (document s))%nat
      ∧ (∀ j, (m < j ≤ length t)%nat →
              handlers_at (take j t) (document s) = 0%nat)
      ∧ click t s
        = set_document
            (Nat.iter (handlers_at (take m t) (document s))
                      (toggled (take m t)) (document s)) s
  | None =>
      (∀ j, (j ≤ length t)%nat → handlers_at (take j t) (document s) = 0%nat)
      ∧ click t s = s
  end.
Proof.
  intros Hi. pose proof (reached_spec (length t) t (document s)) as Hr.
  rewrite click_document by done.
  destruct (reached _ _ _) as [m|]; [|done].
  destruct Hr as (? & ? & ?). done.
Qed.

(** On the sample page with two more containers: a click on the label of
    the container that has two handlers. *)
Lemma click_runs_nearest_handlers_witness :
  click [0; 1; 1] Samples.page1_two_more
  = set_document
      (Nat.iter 2 (toggled [0; 1]) (document Samples.page1_two_more))
      Samples.page1_two_more.
Proof.
  pose proof (click_runs_nearest_handlers [0; 1; 1] Samples.page1_two_more
                eq_refl) as H.
  change (reached (length [0; 1; 1]) [0; 1; 1]
            (document Samples.page1_two_more)) with (Some 2%nat) in H.
  destruct H as (_ & _ & _ & H). exact H.
Defined.

Lemma same_markup_refl a : same_markup a a.
Proof. by split_and!. Qed.

Lemma same_markup_trans a b c :
  same_markup a b → same_markup b c → same_markup a c.
Proof.
  intros (H1 & H2 & H3 & H4) (H1' & H2' & H3' & H4').
  split_and!; [congruence..|]. intros x Hx. by rewrite H4', H4.
Qed.

Lemma same_markup_toggle_effect self below a :
  same_markup a (toggle_effect self below a).
Proof.
  unfold toggle_effect, same_markup. destruct self, below;
    (split_and!; [done..|]); intros x Hx;
    change (classes (toggle_hidden ?b)) with (classes b);
    [by apply elem_of_toggle_class | by apply elem_of_toggle_class | done..].
Qed.

Lemma same_markup_iter k self below a :
  same_markup a (Nat.iter k (toggle_effect self below) a).
Proof.
  induction k as [|k IH]; simpl; [apply same_markup_refl|].
  eapply same_markup_trans; [exact IH | apply same_markup_toggle_effect].
Qed.

Lemma covers_pre d c q a :
  covers d c q = true → attrs_at q d = Some a → tag a = "pre".
Proof.
  unfold covers. rewrite bool_decide_eq_true, elem_of_find.
  intros (_ & Hm & _) Ha.
  change (matches sel_pre d q) with (compound_at [ByTag "pre"] d q) in Hm.
  unfold compound_at in Hm. rewrite Ha in Hm. simpl in Hm.
  rewrite andb_true_r in Hm. by apply bool_decide_eq_true in Hm.
Qed.

Lemma covers_strict d c q : covers d c q = true → c `prefix_of` q ∧ c ≠ q.
Proof.
  unfold covers. rewrite bool_decide_eq_true, elem_of_find. tauto.
Qed.

Lemma click_changes t s :
  selection (click t s) = selection s
  ∧ inserted_handlers (click t s) = inserted_handlers s
  ∧ paths (document (click t s)) = paths (document s)
  ∧ ∀ q, option_Forall2
           (fun a a' =>
              same_markup a a'
              ∧ (tag a ≠ "pre" → hidden a' = hidden a)
              ∧ (¬ q `prefix_of` t → classes a' = classes a))
           (attrs_at q (document s)) (attrs_at q (document (click t s))).
Proof.
  destruct (click_cases t s) as [->|(m & _ & _ & ->)].
  - split_and!; [done..|]. intros q.
    destruct (attrs_at q (document s)); constructor.
    split_and!; [apply same_markup_refl | done..].
  - simpl. split_and!; [done.. | apply paths_iter_toggled |]. intros q.
    rewrite attrs_at_iter_toggled.
    destruct (attrs_at q (document s)) as [a|] eqn:Ha; simpl; constructor.
    split_and!.
    + apply same_markup_iter.
    + intros Hpre. rewrite hidden_iter_toggle_effect.
      destruct (covers (document s) (take m t) q) eqn:Hc; [|done].
      destruct Hpre. by eapply covers_pre.
    + intros Hq. case_bool_decide as Hc.
      * destruct Hq. rewrite <- Hc. apply prefix_take.
      * apply classes_iter_toggle_effect_other.
Qed.

(** X4. What no click ever changes: the selection, the delegated handlers,
    the tree, and every element's tag, attributes, handler count and
    classes other than [active]. The display changes on [pre] elements
    only, and the class list only on the target or one of its ancestors. *)
Theorem click_frame t s :
  selection (click t s) = selection s
  ∧ inserted_handlers (click t s) = inserted_handlers s
  ∧ paths (document (click t s)) = paths (document s)
  ∧ ∀ q, option_Forall2
           (fun a a' =>
              same_markup a a'
              ∧ (tag a ≠ "pre" → hidden a' = hidden a)
              ∧ (¬ q `prefix_of` t → classes a' = classes a))
           (attrs_at q (document s)) (attrs_at q (document (click t s))).
Proof. apply click_changes. Qed.

(** X2. The net effect of a click depends on the parity of the handler
    count of the element it reaches: with an odd count the [pre] elements
    below that element change their display and the element changes whether
    it carries [active]; with an even count both are as before the click. *)
Theorem click_net_effect t s m :
  ignored (Event t false) s = false →
  reached (length t) t (document s) = Some m →
  ∀ q, option_Forall2
         (fun a a' =>
            hidden a'
            = (if covers (document s) (take m t) q
                  && Nat.odd (handlers_at (take m t) (document s))
               then negb (hidden a) else hidden a)
            ∧ ("active" ∈ classes a' ↔
               if bool_decide (take m t = q)
                  && Nat.odd (handlers_at (take m t) (document s))
               then "active" ∉ classes a else "active" ∈ classes a))
         (attrs_at q (document s)) (attrs_at q (document (click t s))).
Proof.
  intros Hi Hm q. rewrite click_document, Hm by done. simpl.
  rewrite attrs_at_iter_toggled.
  destruct (attrs_at q (document s)) as [a|]; simpl; constructor.
  rewrite <- Nat.negb_even. split.
  - rewrite hidden_iter_toggle_effect, iter_negb.
    by destruct (covers _ _ _), (Nat.even _).
  - case_bool_decide; simpl.
    + rewrite active_iter_toggle_effect, (bool_decide_eq_true_2 _ H).
      destruct (Nat.even _); simpl; tauto.
    + rewrite classes_iter_toggle_effect_other.
      by rewrite ?(bool_decide_eq_false_2 _ H).
Qed.

(** On the sample page grown by a [span]: two handlers, no net change. *)
Lemma click_net_effect_witness :
  option_Forall2
    (fun a a' =>
       hidden a'
       = (if covers (document Samples.page1_grown) (take 2 [0; 0; 1]) [0; 0; 2]
             && Nat.odd (handlers_at (take 2 [0; 0; 1])
                           (document Samples.page1_grown))
          then negb (hidden a) else hidden a)
       ∧ ("active" ∈ classes a' ↔
          if bool_decide (take 2 [0; 0; 1] = [0; 0; 2])
             && Nat.odd (handlers_at (take 2 [0; 0; 1])
                           (document Samples.page1_grown))
          then "active" ∉ classes a else "active" ∈ classes a))
    (attrs_at [0; 0; 2] (document Samples.page1_grown))
    (attrs_at [0; 0; 2] (document (click [0; 0; 1] Samples.page1_grown))).
Proof.
  exact (click_net_effect [0; 0; 1] Samples.page1_grown 2 eq_refl eq_refl
           [0; 0; 2]).
Defined.

(** X9. Clicks keep class and display in step: for the element a click
    reaches and every [pre] below it, the [pre] is shown exactly if the
    element carries [active] after the click whenever that was so before,
    however many handlers the element has. *)
Theorem click_keeps_in_step t s m q ac aq :
  ignored (Event t false) s = false →
  reached (length t) t (document s) = Some m →
  q ∈ find sel_pre (document s) (take m t) →
  attrs_at (take m t) (document s) = Some ac →
  attrs_at q (document s) = Some aq →
  (hidden aq = false ↔ "active" ∈ classes ac) →
  ∃ ac' aq',
    attrs_at (take m t) (document (click t s)) = Some ac'
    ∧ attrs_at q (document (click t s)) = Some aq'
    ∧ (hidden aq' = false ↔ "active" ∈ classes ac').
Proof.
  intros Hi Hm Hq Hac Haq Hstep.
  rewrite click_document, Hm by done. simpl.
  rewrite !attrs_at_iter_toggled, Hac, Haq. simpl.
  eexists _, _. split_and!; [done..|].
  assert (covers (document s) (take m t) q = true) as Hc
    by (by apply bool_decide_eq_true).
  destruct (covers_strict _ _ _ Hc) as [_ Hne].
  rewrite hidden_iter_toggle_effect, Hc, iter_negb.
  rewrite (bool_decide_eq_true_2 (take m t = take m t)) by done.
  rewrite active_iter_toggle_effect.
  destruct (Nat.even _); [done|].
  destruct (hidden aq), (decide ("active" ∈ classes ac)); simpl;
    intuition congruence.
Qed.

(** On the sample page with two more containers: the one with two handlers. *)
Lemma click_keeps_in_step_witness :
  ∃ ac' aq',
    attrs_at [0; 1] (document (click [0; 1; 1] Samples.page1_two_more))
    = Some ac'
    ∧ attrs_at [0; 1; 2] (document (click [0; 1; 1] Samples.page1_two_more))
      = Some aq'
    ∧ (hidden aq' = false ↔ "active" ∈ classes ac').
Proof.
  apply (click_keeps_in_step [0; 1; 1] Samples.page1_two_more 2 [0; 1; 2]
           (Attrs "div" ["container"; "collapsible"] [] false 2)
           (Attrs "pre" [] [] true 0)); try reflexivity.
  - vm_compute. repeat constructor.
  - simpl. split; [done|].
    intros H. repeat (apply elem_of_cons in H as [H|H]; [discriminate H|]).
    by apply elem_of_nil in H.
Defined.

(** X11. On a page where no handler was bound before the [ready] callback
    ran, a click that is not ignored and reaches an element toggles it
    exactly once; that element is a container the selector matches, and no
    element nearer to the target is one. *)
Theorem first_click_toggles_once t s m :
  (∀ q, handlers_at q (document s) = 0%nat) →
  ignored (Event t false) (ready s) = false →
  reached (length t) t (document (ready s)) = Some m →
  take m t ∈ select sel_container (document s)
  ∧ (∀ j, (m < j ≤ length t)%nat →
          take j t ∉ select sel_container (document s))
  ∧ click t (ready s)
    = set_document (toggled (take m t) (document (ready s))) (ready s).
Proof.
  intros Hfresh Hi Hm.
  pose proof (reached_spec (length t) t (document (ready s))) as Hr.
  rewrite Hm in Hr. destruct Hr as (_ & Hpos & Hzero).
  change (document (ready s)) with (Nat.iter 1 initCollapsible (document s))
    in Hpos, Hzero.
  rewrite handlers_at_iter_any, Hfresh in Hpos.
  assert (take m t ∈ select sel_container (document s)) as Hsel
    by (case_bool_decide; [done | simpl in Hpos; lia]).
  split_and!; [done| |].
  - intros j Hj Hin. specialize (Hzero j Hj).
    rewrite handlers_at_iter_any, Hfresh in Hzero.
    rewrite bool_decide_eq_true_2 in Hzero by done. simpl in Hzero. lia.
  - rewrite click_document, Hm by done.
    change (document (ready s)) with (Nat.iter 1 initCollapsible (document s))
      at 1.
    rewrite handlers_at_iter_any, Hfresh.
    by rewrite bool_decide_eq_true_2 by done.
Qed.

(** On the page with nested containers: a click on the outer code block's
    sibling label. *)
Lemma first_click_toggles_once_witness :
  click [0; 0; 1; 0] (ready Samples.page7)
  = set_document (toggled [0; 0; 1] (document (ready Samples.page7)))
                 (ready Samples.page7).
Proof.
  assert (∀ q, handlers_at q (document Samples.page7) = 0%nat) as Hfresh.
  { intros q. unfold handlers_at.
    destruct (attrs_at q (document Samples.page7)) as [a|] eqn:Ha; [|done].
    assert (q ∈ paths (document Samples.page7)) as Hq
      by (apply elem_of_paths, attrs_at_is_Some; eauto).
    vm_compute in Hq.
    repeat (apply elem_of_cons in Hq as [->|Hq];
            [vm_compute in Ha; by injection Ha as <-|]).
    by apply elem_of_nil in Hq. }
  exact (proj2 (proj2 (first_click_toggles_once [0; 0; 1; 0] Samples.page7 3
                         Hfresh eq_refl eq_refl))).
Defined.

End ClickMore.

(** ** Further properties of insertion and of the guard *)

Section InsertedMore.

Lemma matches_sel_checklist d p :
  matches sel_checklist d p = true ↔ has_class "checklist" d p.
Proof. apply compound_at_class. Qed.

(** The elements the delegated handler runs for are the checklists on the
    branch of the target, the target included. *)
Lemma elem_of_delegate_targets d (t p : path) :
  p ∈ delegate_targets sel_checklist d t ↔
  p `prefix_of` t ∧ has_class "checklist" d p.
Proof.
  unfold delegate_targets.
  rewrite list_elem_of_filter, matches_sel_checklist, elem_of_cons.
  rewrite list_elem_of_In, <- in_rev, <- list_elem_of_In, elem_of_ancestors.
  split.
  - intros [Hc [->|[Hp _]]]; done.
  - intros [Hp Hc]. split; [done|].
    destruct (decide (p = t)); [by left | by right].
Qed.

Lemma NoDup_ancestors (t : path) : NoDup (ancestors t).
Proof.
  unfold ancestors. apply NoDup_fmap_2_strong; [|apply NoDup_seq].
  intros j k Hj%elem_of_seq Hk%elem_of_seq Heq.
  apply (f_equal length) in Heq. rewrite !length_take in Heq. lia.
Qed.

Lemma NoDup_delegate_targets sel d t : NoDup (delegate_targets sel d t).
Proof.
  unfold delegate_targets. apply NoDup_filter. constructor.
  - rewrite list_elem_of_In, <- in_rev, <- list_elem_of_In, elem_of_ancestors.
    by intros [_ ?].
  - apply NoDup_ListNoDup, NoDup_rev, NoDup_ListNoDup, NoDup_ancestors.
Qed.

(** X6. An insertion that is not inside a checklist, or that comes before
    the [ready] callback has bound the delegated handler, brings about no
    re-initialization: the page is left as it is. *)
Theorem insertion_elsewhere_is_inert t s :
  inserted_handlers s = 0%nat
  ∨ (∀ p, p `prefix_of` t → ¬ has_class "checklist" (document s) p) →
  dispatch_node_inserted t s = s.
Proof.
  intros H. rewrite dispatch_node_inserted_iter.
  assert (reinit_count t s = 0%nat) as ->; [|apply set_document_same].
  unfold reinit_count. destruct H as [->|H]; [lia|].
  destruct (delegate_targets sel_checklist (document s) t) as [|p l] eqn:Hl;
    [done|].
  assert (p ∈ delegate_targets sel_checklist (document s) t) as Hp
    by (rewrite Hl; left).
  apply elem_of_delegate_targets in Hp as [Hp Hc]. by destruct (H p Hp).
Qed.

(** On the loaded page whose container lies outside any checklist. *)
Lemma insertion_elsewhere_is_inert_witness :
  dispatch_node_inserted [0; 1] (ready Samples.page3) = ready Samples.page3.
Proof.
  apply insertion_elsewhere_is_inert. right.
  intros p Hp (a & Ha & Hc).
  assert (p ∈ [[]; [0]; [0; 1]]) as Hin.
  { destruct Hp as [r Hr]. destruct p as [|i [|j [|k p]]]; simpl in Hr.
    - left.
    - injection Hr as <- _. right; left.
    - injection Hr as <- <- _. right; right; left.
    - discriminate Hr. }
  repeat (apply elem_of_cons in Hin as [->|Hin];
          [vm_compute in Ha; try discriminate Ha; injection Ha as <-;
           repeat (apply elem_of_cons in Hc as [Hc|Hc]; [discriminate Hc|]);
           by apply elem_of_nil in Hc|]).
  by apply elem_of_nil in Hin.
Defined.

(** X7. An insertion binds, to every container the selector matches, one
    more click handler for each checklist on the branch of the inserted
    node and each delegated handler bound on the document, and binds none
    to any other element. *)
Theorem insertion_binds_per_checklist t s q :
  NoDup (delegate_targets sel_checklist (document s) t)
  ∧ (∀ p, p ∈ delegate_targets sel_checklist (document s) t ↔
          p `prefix_of` t ∧ has_class "checklist" (document s) p)
  ∧ handlers_at q (document (dispatch_node_inserted t s))
    = (handlers_at q (document s)
       + if bool_decide (q ∈ select sel_container (document s))
         then length (delegate_targets sel_checklist (document s) t)
              * inserted_handlers s
         else 0)%nat.
Proof.
  split_and!.
  - apply NoDup_delegate_targets.
  - intros p. apply elem_of_delegate_targets.
  - rewrite dispatch_node_inserted_iter. simpl. apply handlers_at_iter_any.
Qed.


End InsertedMore.

(** ** The page over time *)

Section Runs.

Lemma evolves_refl a : evolves a a.
Proof. by split_and!. Qed.

Lemma evolves_trans a b c : evolves a b → evolves b c → evolves a c.
Proof.
  intros (H1 & H2 & H3 & H4 & H5) (H1' & H2' & H3' & H4' & H5').
  split_and!; [congruence.. | | lia |].
  - intros x Hx. by rewrite H3', H3.
  - intros Hpre. rewrite H5' by congruence. auto.
Qed.

Lemma covered_pre d q a :
  covered d q = true → attrs_at q d = Some a → tag a = "pre".
Proof.
  intros (c & _ & Hq)%covered_true. apply (covers_pre d c).
  by apply bool_decide_eq_true.
Qed.

Lemma matches_iter_toggled sel k c d q :
  Forall (keeps (toggle_class_attrs "active")) sel →
  matches sel (Nat.iter k (toggled c) d) q = matches sel d q.
Proof.
  intros H. induction k as [|k IH]; simpl; [done|].
  by rewrite matches_toggled.
Qed.

(** One action: the tree stays, every element evolves, and a selector that
    does not test [active] sees what it saw. *)
Lemma perform_evolves s a :
  paths (document (perform s a)) = paths (document s)
  ∧ inserted_handlers (perform s a) = inserted_handlers s
  ∧ (∀ q, option_Forall2 evolves (attrs_at q (document s))
                                 (attrs_at q (document (perform s a))))
  ∧ ∀ sel q, Forall (keeps (toggle_class_attrs "active")) sel →
             matches sel (document (perform s a)) q
             = matches sel (document s) q.
Proof.
  destruct a as [t|text|t]; simpl.
  - destruct (click_changes t s) as (_ & Hi & Hp & Hq).
    split_and!; [done..| |].
    + intros q. specialize (Hq q).
      destruct Hq as [a a' ((? & ? & Hh & ?) & ? & _)|]; constructor.
      split_and!; [done..|lia|done].
    + intros sel q Hsel.
      destruct (click_cases t s) as [->|(m & _ & _ & ->)]; [done|].
      simpl. by apply matches_iter_toggled.
  - split_and!; [done..| |done].
    intros q. destruct (attrs_at q (document s)); constructor.
    apply evolves_refl.
  - rewrite dispatch_node_inserted_iter. simpl.
    split_and!; [apply paths_iter_init | done | |].
    + intros q. rewrite attrs_at_iter_init.
      destruct (attrs_at q (document s)) as [a|] eqn:Ha; constructor.
      split_and!; simpl; [done..|lia|].
      intros Hpre.
      destruct (covered (document s) q) eqn:Hc.
      * destruct Hpre. by eapply covered_pre.
      * by rewrite andb_false_r, orb_false_r.
    + intros sel q _. apply matches_iter_init.
Qed.

Lemma option_Forall2_evolves_trans (x y z : option attrs) :
  option_Forall2 evolves x y → option_Forall2 evolves y z →
  option_Forall2 evolves x z.
Proof.
  intros [a b Hab|] Hyz; inversion Hyz; subst; constructor.
  by eapply evolves_trans.
Qed.

(** X12. Whatever sequence of clicks, selection changes and insertion
    events a page goes through, the script leaves its markup alone: the
    tree is the same, every element has its tag, its attributes and its
    classes other than [active], no handler is ever unbound, only [pre]
    elements change their display, and the containers the selector matches
    are the same throughout. *)
Theorem run_keeps_markup l s :
  paths (document (run l s)) = paths (document s)
  ∧ inserted_handlers (run l s) = inserted_handlers s
  ∧ (∀ q, option_Forall2 evolves (attrs_at q (document s))
                                 (attrs_at q (document (run l s))))
  ∧ select sel_container (document (run l s))
    = select sel_container (document s).
Proof.
  assert (paths (document (run l s)) = paths (document s)
          ∧ inserted_handlers (run l s) = inserted_handlers s
          ∧ (∀ q, option_Forall2 evolves (attrs_at q (document s))
                                 (attrs_at q (document (run l s))))
          ∧ ∀ q, matches sel_container (document (run l s)) q
                 = matches sel_container (document s) q) as (Hp & Hi & Hq & Hm).
  { unfold run. revert s; induction l as [|a l IH]; intros s; simpl.
    - split_and!; [done..| |done].
      intros q. destruct (attrs_at q (document s)); constructor.
      apply evolves_refl.
    - destruct (IH (perform s a)) as (Hp & Hi & Hq & Hm).
      destruct (perform_evolves s a) as (Hp' & Hi' & Hq' & Hm').
      split_and!; [congruence.. | |].
      + intros q. by eapply option_Forall2_evolves_trans.
      + intros q. rewrite Hm. apply Hm', keeps_active_sel_container. }
  split_and!; [done..|]. by apply select_ext.
Qed.

End Runs.
